(** * Simple Notes API: a shallow embedding of the FastAPI/SQLite backend

    The development follows the three source modules:
    - [models.py]  : the pydantic request/response models and their field
                     constraints;
    - [db.py]      : the SQLite schema ([init_db]) and [fetch_one_note];
    - [main.py]    : the five request handlers.

    The database file is modelled as an explicit state that every handler
    threads through a small state-and-exception monad.  What the handlers
    cannot control is collected in an environment [Env.t]: the value of
    SQLite's [CURRENT_TIMESTAMP], an error the engine may raise on the
    writing statement, and rows removed by other connections between a
    handler's [commit] and its read-back. *)

From Stdlib Require Import ZArith List String Bool Lia.
From Stdlib Require Import Sorting.Sorted Sorting.Permutation.
Import ListNotations.

Local Open Scope string_scope.
Local Open Scope Z_scope.

(* ===================================================================== *)
(** ** models.py *)
(* ===================================================================== *)

(** A pydantic [Field] on a [str]: [min_length] / [max_length] count the
    characters of the string. *)
Definition str_field (min_length : nat) (max_length : option nat)
           (s : string) : bool :=
  (min_length <=? String.length s)%nat &&
  match max_length with
  | Some m => (String.length s <=? m)%nat
  | None => true
  end.

(** [class NoteBase]: the two shared fields. *)
Module NoteBase.
Definition title_ok : string -> bool := str_field 1 (Some 200%nat).
Definition content_ok : string -> bool := str_field 1 None.
End NoteBase.

(** A JSON request body as the two endpoints read it: each key is either
    present with a string value or absent. *)
Module Body.
Record t := make { title : option string; content : option string }.
End Body.

(** [class NoteCreate(NoteBase)]: both fields required ([Field(...)]). *)
Module NoteCreate.
Record t := make { title : string; content : string }.

Definition parse (b : Body.t) : option t :=
  match Body.title b, Body.content b with
  | Some ti, Some co =>
      if NoteBase.title_ok ti && NoteBase.content_ok co
      then Some (make ti co) else None
  | _, _ => None
  end.
End NoteCreate.

(** [class NoteUpdate(BaseModel)]: both fields [Optional], default [None];
    the length constraints apply to a field that is supplied. *)
Module NoteUpdate.
Record t := make { title : option string; content : option string }.

Definition opt_ok (ok : string -> bool) (o : option string) : bool :=
  match o with
  | Some s => ok s
  | None => true
  end.

Definition parse (b : Body.t) : option t :=
  if opt_ok NoteBase.title_ok (Body.title b)
     && opt_ok NoteBase.content_ok (Body.content b)
  then Some (make (Body.title b) (Body.content b)) else None.
End NoteUpdate.

(** A row of the [notes] table, as the dict built by [row_to_note_dict].
    Timestamps are SQLite's 'YYYY-MM-DD HH:MM:SS' texts; they are modelled
    by the number of seconds they denote, which orders them the way
    [datetime(...)] does. *)
Module Row.
Record t := make {
  id : Z;
  title : string;
  content : string;
  created_at : Z;
  updated_at : Z
}.
End Row.

(** [class NoteOut(NoteBase)]: the response model.  It inherits the
    [NoteBase] constraints, so building it from a row checks them. *)
Module NoteOut.
Record t := make {
  id : Z;
  title : string;
  content : string;
  created_at : Z;
  updated_at : Z
}.

(** [NoteOut] built from the keys of the dict [d]; [None] stands for
    pydantic's [ValidationError]. *)
Definition of_dict (d : Row.t) : option t :=
  if NoteBase.title_ok (Row.title d) && NoteBase.content_ok (Row.content d)
  then Some (make (Row.id d) (Row.title d) (Row.content d)
                  (Row.created_at d) (Row.updated_at d))
  else None.
End NoteOut.

(* ===================================================================== *)
(** ** The database, the environment and the handler monad *)
(* ===================================================================== *)

(** The [notes] table: its rows and the AUTOINCREMENT counter SQLite keeps
    for it in [sqlite_sequence]. *)
Record Table := mkTable { rows : list Row.t; seq : Z }.

(** The database file: the [notes] table, when it exists, and whether the
    trigger [notes_set_updated_at] exists. *)
Record Database := mkDatabase {
  notes : option Table;
  notes_set_updated_at : bool
}.

(** A fresh database file. *)
Definition empty_database : Database := mkDatabase None false.

Inductive sqlite3_Error :=
| IntegrityError (msg : string)
| OperationalError (msg : string).

(** What a request can raise. *)
Inductive exn :=
| HTTPException (status_code : Z) (detail : string)
| RequestValidationError          (* the body does not fit the model *)
| ValidationError                 (* pydantic, while building [NoteOut] *)
| OverflowError                   (* sqlite3, while binding a parameter *)
| Sqlite3 (e : sqlite3_Error).

Module Env.
Record t := make {
  (** the value of [CURRENT_TIMESTAMP] while the request runs *)
  CURRENT_TIMESTAMP : Z;
  (** an error the engine raises on the handler's writing statement *)
  write_error : option sqlite3_Error;
  (** ids deleted by other connections after the handler's [commit]
      and before it reads the row back *)
  concurrent_deletes : list Z
}.

(** No engine error, no other connection. *)
Definition quiet (now : Z) : t := make now None [].
End Env.

(** State and exceptions: the state is the committed database. *)
Definition M (A : Type) : Type := Database -> (exn + A) * Database.

Definition ret {A} (a : A) : M A := fun db => (inr a, db).

Definition raise {A} (e : exn) : M A := fun db => (inl e, db).

Definition bind {A B} (m : M A) (k : A -> M B) : M B :=
  fun db =>
    match m db with
    | (inr a, db') => k a db'
    | (inl e, db') => (inl e, db')
    end.

Declare Scope handler_scope.
Delimit Scope handler_scope with handler.
Notation "x <- m ;; k" := (bind m (fun x => k))
  (at level 100, m at next level, right associativity) : handler_scope.
Notation "m ;;; k" := (bind m (fun _ => k))
  (at level 100, right associativity) : handler_scope.
Local Open Scope handler_scope.

(** [try: body except sqlite3.IntegrityError as e: handler e]. *)
Definition try_except_IntegrityError {A}
           (body : M A) (handler : string -> M A) : M A :=
  fun db =>
    match body db with
    | (inl (Sqlite3 (IntegrityError msg)), db') => handler msg db'
    | r => r
    end.

(** The response status FastAPI sends for an exception leaving a handler:
    an [HTTPException] carries its own, a request that fails validation is
    answered 422, anything else is an internal server error. *)
Definition status_of (e : exn) : Z :=
  match e with
  | HTTPException status_code _ => status_code
  | RequestValidationError => 422
  | ValidationError => 500
  | OverflowError => 500
  | Sqlite3 _ => 500
  end.

Definition client_error (e : exn) : bool :=
  (400 <=? status_of e) && (status_of e <? 500).

Definition server_error (e : exn) : bool :=
  (500 <=? status_of e) && (status_of e <? 600).

(** The error taxonomy of the specification, read off the response. *)
Inductive error_kind := Validation | NotFound | Storage | Other.

Definition kind_of (e : exn) : error_kind :=
  if status_of e =? 404 then NotFound
  else if client_error e then Validation
  else if server_error e then Storage
  else Other.

(* ===================================================================== *)
(** ** db.py *)
(* ===================================================================== *)

(** Paths are absolute and resolved: the list of their components below
    the root. *)
Definition str (p : list string) : string :=
  "/" ++ String.concat "/" p.

(** [Path.parents[n]]; [None] stands for the [IndexError] of a path that
    has no such ancestor. *)
Definition parents (p : list string) (n : nat) : option (list string) :=
  if (n <? List.length p)%nat
  then Some (firstn (List.length p - S n) p)
  else None.

(** [_default_db_path()], for the resolved location [module_file] of
    [db.py]. *)
Definition _default_db_path (module_file : list string)
  : option (list string) :=
  match parents module_file 3 with
  | Some backend_root => Some (backend_root ++ ["database"; "myapp.db"])%list
  | None => None
  end.

(** [os.getenv("SQLITE_DB", _default_db_path())]: the default is computed
    before the environment is looked at. *)
Definition get_db_path (environ : string -> option string)
           (module_file : list string) : option string :=
  match _default_db_path module_file with
  | Some default =>
      Some (match environ "SQLITE_DB" with
            | Some v => v
            | None => str default
            end)
  | None => None
  end.

(** The directory [get_connection] makes sure exists before it connects:
    the parent of the default path, and only when the path in use is
    spelled as the default one. *)
Definition get_connection_mkdir (environ : string -> option string)
           (module_file : list string) : option (option (list string)) :=
  match get_db_path environ module_file, _default_db_path module_file with
  | Some db_path, Some default =>
      Some (if String.eqb db_path (str default)
            then parents default 0
            else None)
  | _, _ => None
  end.

Definition no_such_table {A} : M A :=
  raise (Sqlite3 (OperationalError "no such table: notes")).

(** [conn.commit()].  Every handler commits right after its one writing
    statement, so a statement is applied to the committed state at once
    and an error leaves that state as it was. *)
Definition commit : M unit := ret tt.

(** [CREATE TABLE IF NOT EXISTS notes (...)]. *)
Definition create_table_if_not_exists : M unit :=
  fun db =>
    match notes db with
    | Some _ => (inr tt, db)
    | None => (inr tt, mkDatabase (Some (mkTable [] 0))
                                  (notes_set_updated_at db))
    end.

(** [CREATE TRIGGER IF NOT EXISTS notes_set_updated_at AFTER UPDATE ON
    notes ...]: creating it needs the table. *)
Definition create_trigger_if_not_exists : M unit :=
  fun db =>
    if notes_set_updated_at db then (inr tt, db)
    else match notes db with
         | Some _ => (inr tt, mkDatabase (notes db) true)
         | None => no_such_table db
         end.

Definition init_db : M unit :=
  create_table_if_not_exists ;;;
  create_trigger_if_not_exists ;;;
  commit.

(** [SELECT ... FROM notes WHERE id = ?] followed by [cur.fetchone()]. *)
Definition select_by_id (note_id : Z) (rs : list Row.t) : option Row.t :=
  find (fun r => Row.id r =? note_id) rs.

(** sqlite3 binds an [int] parameter as an SQLite INTEGER, a signed 64-bit
    integer, and raises [OverflowError] for a Python [int] outside that
    range, once the statement is prepared and before it runs. *)
Definition INTEGER_fits (n : Z) : bool :=
  (- 2 ^ 63 <=? n) && (n <? 2 ^ 63).

(** Binding [note_id] for a statement on the rows [rs].  The rowids of a
    table are INTEGERs; they are left unbounded here (a table that has run
    out of rowids is an engine error of the insert), and an id the table
    holds is taken to bind. *)
Definition bind_id (note_id : Z) (rs : list Row.t) : bool :=
  match select_by_id note_id rs with
  | Some _ => true
  | None => INTEGER_fits note_id
  end.

Definition fetch_one_note (note_id : Z) : M (option Row.t) :=
  fun db =>
    match notes db with
    | Some t =>
        if bind_id note_id (rows t)
        then (inr (select_by_id note_id (rows t)), db)
        else raise OverflowError db
    | None => no_such_table db
    end.

(* ===================================================================== *)
(** ** The SQL statements of main.py *)
(* ===================================================================== *)

(** The largest rowid of the table, 0 when there is none above it. *)
Definition max_rowid (rs : list Row.t) : Z :=
  fold_right (fun r m => Z.max (Row.id r) m) 0 rs.

(** AUTOINCREMENT picks a rowid one above every rowid the table holds or
    has held. *)
Definition next_rowid (t : Table) : Z :=
  Z.max (seq t) (max_rowid (rows t)) + 1.

(** [INSERT INTO notes (title, content) VALUES (?, ?)]; the result is
    [cur.lastrowid].  Both timestamp columns take their default. *)
Definition execute_insert (env : Env.t) (title content : string) : M Z :=
  fun db =>
    match Env.write_error env with
    | Some err => (inl (Sqlite3 err), db)
    | None =>
        match notes db with
        | None => no_such_table db
        | Some t =>
            let rowid := next_rowid t in
            let now := Env.CURRENT_TIMESTAMP env in
            (inr rowid,
             mkDatabase
               (Some (mkTable
                        (rows t ++ [Row.make rowid title content now now])
                        rowid))
               (notes_set_updated_at db))
        end
    end.

(** One row through [UPDATE notes SET title = ?, content = ? WHERE id = ?]
    and, when it exists, through the trigger, which then sets the row's
    [updated_at] to [CURRENT_TIMESTAMP]. *)
Definition update_row (now : Z) (trigger : bool) (title content : string)
           (r : Row.t) : Row.t :=
  Row.make (Row.id r) title content (Row.created_at r)
           (if trigger then now else Row.updated_at r).

Definition update_where (note_id now : Z) (trigger : bool)
           (title content : string) (r : Row.t) : Row.t :=
  if Row.id r =? note_id
  then update_row now trigger title content r
  else r.

Definition execute_update (env : Env.t) (title content : string)
           (note_id : Z) : M unit :=
  fun db =>
    match Env.write_error env with
    | Some err => (inl (Sqlite3 err), db)
    | None =>
        match notes db with
        | None => no_such_table db
        | Some t =>
            let upd :=
              update_where note_id (Env.CURRENT_TIMESTAMP env)
                           (notes_set_updated_at db) title content in
            if bind_id note_id (rows t)
            then (inr tt,
                  mkDatabase (Some (mkTable (map upd (rows t)) (seq t)))
                             (notes_set_updated_at db))
            else raise OverflowError db
        end
    end.

Definition delete_rows (note_id : Z) (rs : list Row.t) : list Row.t :=
  filter (fun r => negb (Row.id r =? note_id)) rs.

(** [DELETE FROM notes WHERE id = ?]; the result is [cur.rowcount]. *)
Definition execute_delete (env : Env.t) (note_id : Z) : M Z :=
  fun db =>
    match Env.write_error env with
    | Some err => (inl (Sqlite3 err), db)
    | None =>
        match notes db with
        | None => no_such_table db
        | Some t =>
            let hit := filter (fun r => Row.id r =? note_id) (rows t) in
            if bind_id note_id (rows t)
            then (inr (Z.of_nat (List.length hit)),
                  mkDatabase
                    (Some (mkTable (delete_rows note_id (rows t)) (seq t)))
                    (notes_set_updated_at db))
            else raise OverflowError db
        end
    end.

(** [ORDER BY datetime(updated_at) DESC, id DESC]: [a] may stand before
    [b]. *)
Definition order_before (a b : Row.t) : bool :=
  (Row.updated_at b <? Row.updated_at a)
  || ((Row.updated_at a =? Row.updated_at b) && (Row.id b <=? Row.id a)).

Fixpoint insert_ordered (r : Row.t) (l : list Row.t) : list Row.t :=
  match l with
  | [] => [r]
  | x :: l' => if order_before r x then r :: l else x :: insert_ordered r l'
  end.

Definition order_by (rs : list Row.t) : list Row.t :=
  fold_right insert_ordered [] rs.

(** [SELECT id, title, content, created_at, updated_at FROM notes ORDER BY
    ...] followed by [cur.fetchall()]. *)
Definition select_all_ordered : M (list Row.t) :=
  fun db =>
    match notes db with
    | Some t => (inr (order_by (rows t)), db)
    | None => no_such_table db
    end.

(** What other connections commit while the handler holds no lock. *)
Definition other_connections (env : Env.t) : M unit :=
  fun db =>
    match notes db with
    | Some t =>
        (inr tt,
         mkDatabase
           (Some (mkTable
                    (fold_right delete_rows (rows t)
                                (Env.concurrent_deletes env))
                    (seq t)))
           (notes_set_updated_at db))
    | None => (inr tt, db)
    end.

(* ===================================================================== *)
(** ** main.py: the handlers *)
(* ===================================================================== *)

(** [NoteOut] built from a row dict, inside a handler. *)
Definition NoteOut_of (d : Row.t) : M NoteOut.t :=
  match NoteOut.of_dict d with
  | Some n => ret n
  | None => raise ValidationError
  end.

Fixpoint NoteOut_of_all (ds : list Row.t) : M (list NoteOut.t) :=
  match ds with
  | [] => ret []
  | d :: ds' =>
      n <- NoteOut_of d ;;
      ns <- NoteOut_of_all ds' ;;
      ret (n :: ns)
  end.

Definition create_note (env : Env.t) (payload : NoteCreate.t) : M NoteOut.t :=
  try_except_IntegrityError
    (note_id <- execute_insert env (NoteCreate.title payload)
                               (NoteCreate.content payload) ;;
     commit ;;;
     other_connections env ;;;
     created <- fetch_one_note note_id ;;
     match created with
     | None => raise (HTTPException 500 "Failed to load created note")
     | Some d => NoteOut_of d
     end)
    (fun e => raise (HTTPException 400 ("Invalid note data: " ++ e))).

Definition list_notes : M (list NoteOut.t) :=
  rs <- select_all_ordered ;;
  NoteOut_of_all rs.

Definition get_note (note_id : Z) : M NoteOut.t :=
  note <- fetch_one_note note_id ;;
  match note with
  | None => raise (HTTPException 404 "Note not found")
  | Some d => NoteOut_of d
  end.

(** [payload.title if payload.title is not None else existing["title"]],
    and the same for the content. *)
Definition new_title (u : NoteUpdate.t) (old : Row.t) : string :=
  match NoteUpdate.title u with
  | Some s => s
  | None => Row.title old
  end.

Definition new_content (u : NoteUpdate.t) (old : Row.t) : string :=
  match NoteUpdate.content u with
  | Some s => s
  | None => Row.content old
  end.

Definition update_note (env : Env.t) (note_id : Z) (payload : NoteUpdate.t)
  : M NoteOut.t :=
  match NoteUpdate.title payload, NoteUpdate.content payload with
  | None, None =>
      raise (HTTPException 400
               "At least one of 'title' or 'content' must be provided")
  | _, _ =>
      try_except_IntegrityError
        (existing <- fetch_one_note note_id ;;
         match existing with
         | None => raise (HTTPException 404 "Note not found")
         | Some existing =>
             execute_update env (new_title payload existing)
                            (new_content payload existing) note_id ;;;
             commit ;;;
             other_connections env ;;;
             updated <- fetch_one_note note_id ;;
             match updated with
             | None => raise (HTTPException 500 "Failed to load updated note")
             | Some d => NoteOut_of d
             end
         end)
        (fun e => raise (HTTPException 400 ("Invalid note data: " ++ e)))
  end.

Definition delete_note (env : Env.t) (note_id : Z) : M unit :=
  rowcount <- execute_delete env note_id ;;
  commit ;;;
  if rowcount =? 0
  then raise (HTTPException 404 "Note not found")
  else ret tt.

(* ===================================================================== *)
(** ** The routes: request validation in front of the handlers *)
(* ===================================================================== *)

Inductive Request :=
| POST_notes (body : Body.t)
| GET_notes
| GET_note (note_id : Z)
| PUT_note (note_id : Z) (body : Body.t)
| DELETE_note (note_id : Z).

Inductive Reply :=
| One (n : NoteOut.t)
| Many (ns : list NoteOut.t)
| NoContent.

Definition post_notes (env : Env.t) (body : Body.t) : M NoteOut.t :=
  match NoteCreate.parse body with
  | Some payload => create_note env payload
  | None => raise RequestValidationError
  end.

Definition put_note (env : Env.t) (note_id : Z) (body : Body.t)
  : M NoteOut.t :=
  match NoteUpdate.parse body with
  | Some payload => update_note env note_id payload
  | None => raise RequestValidationError
  end.

Definition serve (env : Env.t) (rq : Request) : M Reply :=
  match rq with
  | POST_notes body => n <- post_notes env body ;; ret (One n)
  | GET_notes => ns <- list_notes ;; ret (Many ns)
  | GET_note note_id => n <- get_note note_id ;; ret (One n)
  | PUT_note note_id body => n <- put_note env note_id body ;; ret (One n)
  | DELETE_note note_id => delete_note env note_id ;;; ret NoContent
  end.

(* ===================================================================== *)
(** ** Vocabulary of the properties *)
(* ===================================================================== *)

(** The rows the database holds; none while the table does not exist. *)
Definition stored (db : Database) : list Row.t :=
  match notes db with
  | Some t => rows t
  | None => []
  end.

(** The schema [init_db] sets up is in place. *)
Definition schema_ready (db : Database) : Prop :=
  notes db <> None /\ notes_set_updated_at db = true.

(** The order of the listing, as a relation on rows and on notes. *)
Definition before (a b : Row.t) : Prop :=
  Row.updated_at b < Row.updated_at a
  \/ (Row.updated_at a = Row.updated_at b /\ Row.id b <= Row.id a).

Definition listed_before (a b : NoteOut.t) : Prop :=
  NoteOut.updated_at b < NoteOut.updated_at a
  \/ (NoteOut.updated_at a = NoteOut.updated_at b
      /\ NoteOut.id b <= NoteOut.id a).

(** The note a row is sent as. *)
Definition note_of_row (r : Row.t) : NoteOut.t :=
  NoteOut.make (Row.id r) (Row.title r) (Row.content r)
               (Row.created_at r) (Row.updated_at r).

(** A row that fits the [NoteBase] constraints. *)
Definition row_valid (r : Row.t) : Prop :=
  NoteBase.title_ok (Row.title r) = true
  /\ NoteBase.content_ok (Row.content r) = true.

(** The invariants of the data model: an id names at most one note, no
    note was updated before it was created, no note has an empty title or
    an empty content. *)
Definition ids_unique (rs : list Row.t) : Prop :=
  NoDup (map Row.id rs).

Definition timestamps_ordered (rs : list Row.t) : Prop :=
  Forall (fun r => Row.created_at r <= Row.updated_at r) rs.

(** The titles satisfy [Pt] and the contents [Pc]. *)
Definition fields_satisfy (Pt Pc : string -> Prop) (rs : list Row.t) : Prop :=
  Forall (fun r => Pt (Row.title r) /\ Pc (Row.content r)) rs.

Definition fields_non_empty : list Row.t -> Prop :=
  fields_satisfy (fun t => t <> "") (fun c => c <> "").

Definition data_model_invariants (db : Database) : Prop :=
  ids_unique (stored db)
  /\ timestamps_ordered (stored db)
  /\ fields_non_empty (stored db).

(** Unique ids, ordered timestamps and fields that satisfy [Pt] and [Pc],
    with the clock not behind the rows. *)
Definition rows_good (Pt Pc : string -> Prop) (now : Z) (rs : list Row.t)
  : Prop :=
  ids_unique rs /\ timestamps_ordered rs /\ fields_satisfy Pt Pc rs
  /\ Forall (fun r => Row.created_at r <= now) rs.

(** The clock has not gone back behind a stored creation time. *)
Definition clock_not_behind (db : Database) (now : Z) : Prop :=
  Forall (fun r => Row.created_at r <= now) (stored db).

(** The states the service goes through: [init_db] on a fresh file when
    the module is imported, then requests, served one after the other
    under a clock that does not go back. *)
Inductive reachable : Database -> Z -> Prop :=
| reachable_init (clock : Z) :
    reachable (snd (init_db empty_database)) clock
| reachable_serve (db : Database) (clock : Z) (env : Env.t) (rq : Request) :
    reachable db clock ->
    clock <= Env.CURRENT_TIMESTAMP env ->
    reachable (snd (serve env rq db)) (Env.CURRENT_TIMESTAMP env).

Definition with_rows (db : Database) (rs : list Row.t) (sq : Z) : Database :=
  mkDatabase (Some (mkTable rs sq)) (notes_set_updated_at db).

Definition after_others (env : Env.t) (rs : list Row.t) : list Row.t :=
  fold_right delete_rows rs (Env.concurrent_deletes env).

Definition inserted_row (env : Env.t) (p : NoteCreate.t) (t : Table) : Row.t :=
  Row.make (next_rowid t) (NoteCreate.title p) (NoteCreate.content p)
           (Env.CURRENT_TIMESTAMP env) (Env.CURRENT_TIMESTAMP env).

Definition some_field (u : NoteUpdate.t) : Prop :=
  NoteUpdate.title u <> None \/ NoteUpdate.content u <> None.

(** The end of [create_note] and [update_note]: the row is read back. *)
Definition read_back (note_id : Z) (failure : string) (db : Database)
  : (exn + NoteOut.t) * Database :=
  match select_by_id note_id (stored db) with
  | None =>
      if INTEGER_fits note_id
      then (inl (HTTPException 500 failure), db)
      else (inl OverflowError, db)
  | Some d =>
      match NoteOut.of_dict d with
      | Some n => (inr n, db)
      | None => (inl ValidationError, db)
      end
  end.

(** The AUTOINCREMENT counter of the database. *)
Definition counter (db : Database) : Z :=
  match notes db with
  | Some t => seq t
  | None => 0
  end.

(** What a request can leave of a database whose table is [tbl]: the
    database as it was, or the table after one insert, one update or one
    delete (and what other connections deleted meanwhile). *)
Inductive written (env : Env.t) (db : Database) (tbl : Table)
  : Database -> Prop :=
| written_nothing : written env db tbl db
| written_insert (p : NoteCreate.t) :
    NoteBase.title_ok (NoteCreate.title p) = true ->
    NoteBase.content_ok (NoteCreate.content p) = true ->
    written env db tbl
      (with_rows db
         (after_others env (rows tbl ++ [inserted_row env p tbl]))
         (next_rowid tbl))
| written_update (i : Z) (t c : string) :
    written env db tbl
      (with_rows db
         (after_others env
            (map (update_where i (Env.CURRENT_TIMESTAMP env)
                               (notes_set_updated_at db) t c)
                 (rows tbl)))
         (seq tbl))
| written_delete (i : Z) :
    written env db tbl (with_rows db (delete_rows i (rows tbl)) (seq tbl)).

(** Requests served one after the other. *)
Fixpoint serve_all (trace : list (Env.t * Request)) (db : Database)
  : Database :=
  match trace with
  | [] => db
  | (env, rq) :: trace' => serve_all trace' (snd (serve env rq db))
  end.

(** The field constraints, on a note that is sent. *)
Definition note_valid (n : NoteOut.t) : Prop :=
  NoteBase.title_ok (NoteOut.title n) = true
  /\ NoteBase.content_ok (NoteOut.content n) = true.

(** A handler that only ever returns notes that fit the constraints. *)
Definition returns_valid (m : M NoteOut.t) : Prop :=
  forall db n db', m db = (inr n, db') -> note_valid n.

(** A store of three notes, the first one updated after the others. *)
Definition sample_database : Database :=
  mkDatabase
    (Some (mkTable [Row.make 1 "A" "a" 10 15;
                    Row.make 2 "B" "b" 10 10;
                    Row.make 3 "C" "c" 12 12] 3))
    true.

(** The fields a create or an update must not carry. *)
Definition rejected_fields (b : Body.t) : Prop :=
  Body.title b = Some ""
  \/ Body.content b = Some ""
  \/ exists t, Body.title b = Some t /\ (200 < String.length t)%nat.

(* ===================================================================== *)
(** ** Facts about the statements *)
(* ===================================================================== *)

Section Selecting.

Lemma select_by_id_Some (i : Z) (rs : list Row.t) (r : Row.t) :
  select_by_id i rs = Some r -> In r rs /\ Row.id r = i.
Proof.
  unfold select_by_id. intros H.
  apply find_some in H. destruct H as [Hin Heq].
  split; [exact Hin | now apply Z.eqb_eq].
Qed.

Lemma select_by_id_None (i : Z) (rs : list Row.t) :
  select_by_id i rs = None -> forall r, In r rs -> Row.id r <> i.
Proof.
  unfold select_by_id. intros H r Hin Heq.
  pose proof (find_none _ _ H r Hin) as Hf. cbv beta in Hf.
  apply Z.eqb_neq in Hf. contradiction.
Qed.

Lemma select_by_id_absent (i : Z) (rs : list Row.t) :
  (forall r, In r rs -> Row.id r <> i) -> select_by_id i rs = None.
Proof.
  induction rs as [|x rs IH]; intros H; [reflexivity|].
  unfold select_by_id in *. simpl.
  destruct (Row.id x =? i) eqn:E.
  - apply Z.eqb_eq in E. exfalso. apply (H x); [now left | exact E].
  - apply IH. intros r Hr. apply H. now right.
Qed.

Lemma select_by_id_app (i : Z) (rs rs' : list Row.t) :
  select_by_id i (rs ++ rs') =
  match select_by_id i rs with
  | Some r => Some r
  | None => select_by_id i rs'
  end.
Proof.
  unfold select_by_id.
  induction rs as [|x rs IH]; simpl; [reflexivity|].
  destruct (Row.id x =? i); [reflexivity | exact IH].
Qed.

Lemma max_rowid_ge (rs : list Row.t) (r : Row.t) :
  In r rs -> Row.id r <= max_rowid rs.
Proof.
  induction rs as [|x rs IH]; simpl; intros H; [contradiction|].
  destruct H as [-> | H]; [lia | specialize (IH H); lia].
Qed.

(** The rowid AUTOINCREMENT picks is not in use. *)
Lemma next_rowid_fresh (t : Table) :
  select_by_id (next_rowid t) (rows t) = None.
Proof.
  apply select_by_id_absent. intros r Hr. unfold next_rowid.
  pose proof (max_rowid_ge _ _ Hr). lia.
Qed.

Lemma delete_rows_absent (i : Z) (rs : list Row.t) :
  select_by_id i rs = None -> delete_rows i rs = rs.
Proof.
  intros H. pose proof (select_by_id_None _ _ H) as Hn. clear H.
  induction rs as [|x rs IH]; [reflexivity|].
  unfold delete_rows in *. simpl.
  destruct (Row.id x =? i) eqn:E; simpl.
  - apply Z.eqb_eq in E. exfalso. apply (Hn x); [now left | exact E].
  - f_equal. apply IH. intros r Hr. apply Hn. now right.
Qed.

Lemma rowcount_absent (i : Z) (rs : list Row.t) :
  select_by_id i rs = None ->
  filter (fun r => Row.id r =? i) rs = [].
Proof.
  intros H. pose proof (select_by_id_None _ _ H) as Hn. clear H.
  induction rs as [|x rs IH]; [reflexivity|]. simpl.
  destruct (Row.id x =? i) eqn:E.
  - apply Z.eqb_eq in E. exfalso. apply (Hn x); [now left | exact E].
  - apply IH. intros r Hr. apply Hn. now right.
Qed.

Lemma In_delete_rows (i : Z) (rs : list Row.t) (r : Row.t) :
  In r (delete_rows i rs) <-> In r rs /\ Row.id r <> i.
Proof.
  unfold delete_rows. rewrite filter_In, negb_true_iff, Z.eqb_neq.
  reflexivity.
Qed.

Lemma select_by_id_deleted (i : Z) (rs : list Row.t) :
  select_by_id i (delete_rows i rs) = None.
Proof.
  apply select_by_id_absent. intros r Hr.
  now apply In_delete_rows in Hr.
Qed.

Lemma In_concurrent_deletes (ids : list Z) (rs : list Row.t) (r : Row.t) :
  In r (fold_right delete_rows rs ids) <-> In r rs /\ ~ In (Row.id r) ids.
Proof.
  induction ids as [|i ids IH]; simpl.
  - tauto.
  - rewrite In_delete_rows, IH. intuition congruence.
Qed.

Lemma select_by_id_concurrently_deleted
      (i : Z) (ids : list Z) (rs : list Row.t) :
  In i ids -> select_by_id i (fold_right delete_rows rs ids) = None.
Proof.
  intros Hi. apply select_by_id_absent. intros r Hr Heq.
  apply In_concurrent_deletes in Hr. destruct Hr as [_ Hn].
  apply Hn. now rewrite Heq.
Qed.

(** A statement that rewrites rows but keeps their ids. *)
Lemma select_by_id_map (f : Row.t -> Row.t) (i : Z) (rs : list Row.t) :
  (forall r, Row.id (f r) = Row.id r) ->
  select_by_id i (map f rs) = option_map f (select_by_id i rs).
Proof.
  intros Hf. unfold select_by_id.
  induction rs as [|x rs IH]; simpl; [reflexivity|].
  rewrite Hf. destruct (Row.id x =? i); [reflexivity | exact IH].
Qed.

End Selecting.

Section Ordering.

Lemma order_before_spec (a b : Row.t) :
  order_before a b = true <-> before a b.
Proof.
  unfold order_before, before.
  rewrite orb_true_iff, andb_true_iff, Z.ltb_lt, Z.eqb_eq, Z.leb_le.
  reflexivity.
Qed.

Lemma order_before_total (a b : Row.t) :
  order_before a b = false -> before b a.
Proof.
  unfold order_before, before. intros H.
  apply orb_false_iff in H. destruct H as [H1 H2].
  apply Z.ltb_ge in H1.
  apply andb_false_iff in H2. destruct H2 as [H2 | H2].
  - apply Z.eqb_neq in H2. lia.
  - apply Z.leb_gt in H2. lia.
Qed.

Lemma before_trans (a b c : Row.t) : before a b -> before b c -> before a c.
Proof. unfold before. lia. Qed.

Lemma insert_ordered_perm (r : Row.t) (l : list Row.t) :
  Permutation (insert_ordered r l) (r :: l).
Proof.
  induction l as [|x l IH]; simpl; [apply Permutation_refl|].
  destruct (order_before r x); [apply Permutation_refl|].
  eapply perm_trans; [apply perm_skip, IH | apply perm_swap].
Qed.

Lemma order_by_perm (rs : list Row.t) : Permutation (order_by rs) rs.
Proof.
  induction rs as [|r rs IH]; simpl; [constructor|].
  eapply perm_trans; [apply insert_ordered_perm | now apply perm_skip].
Qed.

Lemma insert_ordered_sorted (r : Row.t) (l : list Row.t) :
  StronglySorted before l -> StronglySorted before (insert_ordered r l).
Proof.
  induction l as [|x l IH]; simpl; intros Hs.
  - repeat constructor.
  - inversion Hs as [|? ? Hs' Hall]; subst.
    destruct (order_before r x) eqn:E.
    + apply order_before_spec in E.
      constructor; [exact Hs|].
      constructor; [exact E|].
      eapply Forall_impl; [|exact Hall].
      intros y Hy. now apply before_trans with x.
    + apply order_before_total in E.
      constructor; [now apply IH|].
      eapply Permutation_Forall.
      * apply Permutation_sym, insert_ordered_perm.
      * now constructor.
Qed.

Lemma order_by_sorted (rs : list Row.t) : StronglySorted before (order_by rs).
Proof.
  induction rs as [|r rs IH]; simpl; [constructor|].
  now apply insert_ordered_sorted.
Qed.

End Ordering.

(* ===================================================================== *)
(** ** Running the handlers *)
(* ===================================================================== *)

Section Responses.

Lemma NoteOut_of_valid (r : Row.t) (db : Database) :
  row_valid r -> NoteOut_of r db = (inr (note_of_row r), db).
Proof.
  intros [Ht Hc]. unfold NoteOut_of, NoteOut.of_dict.
  rewrite Ht, Hc. reflexivity.
Qed.

Lemma NoteOut_of_all_valid (rs : list Row.t) (db : Database) :
  Forall row_valid rs ->
  NoteOut_of_all rs db = (inr (map note_of_row rs), db).
Proof.
  induction 1 as [|r rs Hr Hrs IH]; [reflexivity|].
  cbn [NoteOut_of_all map]. unfold bind.
  rewrite (NoteOut_of_valid r db Hr), IH. reflexivity.
Qed.

Lemma listed_before_note_of_row (a b : Row.t) :
  before a b -> listed_before (note_of_row a) (note_of_row b).
Proof. exact (fun H => H). Qed.

Lemma note_of_row_sorted (rs : list Row.t) :
  StronglySorted before rs ->
  StronglySorted listed_before (map note_of_row rs).
Proof.
  induction 1 as [|r rs Hs IH Hall]; cbn [map]; constructor.
  - exact IH.
  - apply Forall_map. eapply Forall_impl; [|exact Hall].
    intros b Hb. now apply listed_before_note_of_row.
Qed.

End Responses.

(* ===================================================================== *)
(** ** The properties *)
(* ===================================================================== *)

(** C2. On every store whose rows fit the data model, [list_notes] answers
    with all the persisted notes, ordered by [updated_at] descending and,
    among equal [updated_at], by [id] descending; on an empty store the
    answer is the empty list, not an error. *)
Theorem list_notes_ordered (db : Database) (tbl : Table) :
  notes db = Some tbl ->
  Forall row_valid (rows tbl) ->
  exists ns,
    list_notes db = (inr ns, db)
    /\ Permutation ns (map note_of_row (rows tbl))
    /\ StronglySorted listed_before ns
    /\ (rows tbl = [] -> ns = []).
Proof.
  intros Hdb Hvalid.
  exists (map note_of_row (order_by (rows tbl))).
  repeat split.
  - unfold list_notes, select_all_ordered, bind. rewrite Hdb.
    apply NoteOut_of_all_valid.
    eapply Permutation_Forall; [|exact Hvalid].
    apply Permutation_sym, order_by_perm.
  - apply Permutation_map, order_by_perm.
  - apply note_of_row_sorted, order_by_sorted.
  - intros ->. reflexivity.
Qed.

Lemma list_notes_ordered_witness :
  exists ns,
    list_notes sample_database = (inr ns, sample_database)
    /\ Permutation ns (map note_of_row (stored sample_database))
    /\ StronglySorted listed_before ns
    /\ (stored sample_database = [] -> ns = []).
Proof.
  apply (list_notes_ordered sample_database
           (mkTable (stored sample_database) 3)).
  - reflexivity.
  - repeat constructor.
Defined.

Section Validation.

Lemma title_ok_iff (s : string) :
  NoteBase.title_ok s = true <-> (1 <= String.length s <= 200)%nat.
Proof.
  unfold NoteBase.title_ok, str_field.
  rewrite andb_true_iff, !Nat.leb_le. reflexivity.
Qed.

Lemma content_ok_iff (s : string) :
  NoteBase.content_ok s = true <-> (1 <= String.length s)%nat.
Proof.
  unfold NoteBase.content_ok, str_field.
  rewrite andb_true_r, Nat.leb_le. reflexivity.
Qed.

Lemma non_empty_length (s : string) :
  (1 <= String.length s)%nat <-> s <> "".
Proof.
  destruct s; simpl; split; intros H; try congruence; lia.
Qed.

Lemma parse_create_valid (t c : string) :
  (1 <= String.length t <= 200)%nat ->
  (1 <= String.length c)%nat ->
  NoteCreate.parse (Body.make (Some t) (Some c))
  = Some (NoteCreate.make t c).
Proof.
  intros Ht Hc. unfold NoteCreate.parse. cbn [Body.title Body.content].
  apply title_ok_iff in Ht. apply content_ok_iff in Hc.
  rewrite Ht, Hc. reflexivity.
Qed.

End Validation.


(** *** The handlers, statement by statement *)

Section Handlers.

Variables (env : Env.t) (db : Database) (tbl : Table).
Hypothesis Hdb : notes db = Some tbl.

Lemma bind_id_stored (i : Z) (rs : list Row.t) (r : Row.t) :
  select_by_id i rs = Some r -> bind_id i rs = true.
Proof. unfold bind_id. now intros ->. Qed.

Lemma bind_id_absent (i : Z) (rs : list Row.t) :
  select_by_id i rs = None -> bind_id i rs = INTEGER_fits i.
Proof. unfold bind_id. now intros ->. Qed.

Lemma fetch_one_note_run (i : Z) :
  fetch_one_note i db =
  (match select_by_id i (rows tbl) with
   | Some r => inr (Some r)
   | None => if INTEGER_fits i then inr None else inl OverflowError
   end, db).
Proof.
  unfold fetch_one_note, bind_id. rewrite Hdb.
  destruct (select_by_id i (rows tbl)); [reflexivity|].
  now destruct (INTEGER_fits i).
Qed.

Lemma get_note_run (i : Z) :
  get_note i db =
  match select_by_id i (rows tbl) with
  | None =>
      (inl (if INTEGER_fits i
            then HTTPException 404 "Note not found"
            else OverflowError), db)
  | Some d => NoteOut_of d db
  end.
Proof.
  unfold get_note, bind. rewrite fetch_one_note_run.
  destruct (select_by_id i (rows tbl)); [reflexivity|].
  now destruct (INTEGER_fits i).
Qed.

Lemma create_note_run (p : NoteCreate.t) :
  create_note env p db =
  match Env.write_error env with
  | Some (IntegrityError m) =>
      (inl (HTTPException 400 ("Invalid note data: " ++ m)), db)
  | Some (OperationalError m) => (inl (Sqlite3 (OperationalError m)), db)
  | None =>
      read_back (next_rowid tbl) "Failed to load created note"
        (with_rows db
           (after_others env (rows tbl ++ [inserted_row env p tbl]))
           (next_rowid tbl))
  end.
Proof.
  unfold create_note, try_except_IntegrityError, bind, execute_insert.
  destruct (Env.write_error env) as [[m|m]|]; [reflexivity|reflexivity|].
  rewrite Hdb. unfold commit, ret, other_connections, fetch_one_note, bind_id.
  cbn [notes rows seq notes_set_updated_at].
  unfold read_back, with_rows, after_others, inserted_row, stored.
  cbn [notes rows].
  match goal with
  | |- context [select_by_id ?a ?b] => destruct (select_by_id a b) as [d|]
  end; [|now destruct (INTEGER_fits (next_rowid tbl))].
  unfold NoteOut_of. now destruct (NoteOut.of_dict d).
Qed.

Lemma update_note_run (i : Z) (u : NoteUpdate.t) (old : Row.t) :
  some_field u ->
  select_by_id i (rows tbl) = Some old ->
  update_note env i u db =
  match Env.write_error env with
  | Some (IntegrityError m) =>
      (inl (HTTPException 400 ("Invalid note data: " ++ m)), db)
  | Some (OperationalError m) => (inl (Sqlite3 (OperationalError m)), db)
  | None =>
      read_back i "Failed to load updated note"
        (with_rows db
           (after_others env
              (map (update_where i (Env.CURRENT_TIMESTAMP env)
                                 (notes_set_updated_at db)
                                 (new_title u old) (new_content u old))
                   (rows tbl)))
           (seq tbl))
  end.
Proof.
  intros Hsome Hold.
  assert (Hbody : forall k : M NoteOut.t,
    match NoteUpdate.title u, NoteUpdate.content u with
    | None, None =>
        raise (HTTPException 400
                 "At least one of 'title' or 'content' must be provided")
    | _, _ => k
    end = k).
  { intros k. unfold some_field in Hsome.
    destruct (NoteUpdate.title u), (NoteUpdate.content u);
      try reflexivity.
    destruct Hsome; congruence. }
  unfold update_note. rewrite Hbody. clear Hbody.
  unfold try_except_IntegrityError, bind. rewrite fetch_one_note_run, Hold.
  unfold execute_update.
  destruct (Env.write_error env) as [[m|m]|]; [reflexivity|reflexivity|].
  rewrite Hdb, (bind_id_stored _ _ _ Hold).
  unfold commit, ret, other_connections, fetch_one_note, bind_id.
  cbn [notes rows seq notes_set_updated_at].
  unfold read_back, with_rows, after_others, stored.
  cbn [notes rows].
  match goal with
  | |- context [select_by_id ?a ?b] => destruct (select_by_id a b) as [d|]
  end; [|now destruct (INTEGER_fits i)].
  unfold NoteOut_of. now destruct (NoteOut.of_dict d).
Qed.

Lemma update_note_missing (i : Z) (u : NoteUpdate.t) :
  some_field u ->
  select_by_id i (rows tbl) = None ->
  update_note env i u db =
  (inl (if INTEGER_fits i
        then HTTPException 404 "Note not found"
        else OverflowError), db).
Proof.
  intros Hsome Hnone.
  unfold update_note, some_field in *.
  destruct (NoteUpdate.title u), (NoteUpdate.content u);
    try (destruct Hsome; congruence);
    unfold try_except_IntegrityError, bind;
    rewrite fetch_one_note_run, Hnone;
    now destruct (INTEGER_fits i).
Qed.

Lemma delete_note_run (i : Z) :
  delete_note env i db =
  match Env.write_error env with
  | Some err => (inl (Sqlite3 err), db)
  | None =>
      if bind_id i (rows tbl)
      then (match select_by_id i (rows tbl) with
            | Some _ => inr tt
            | None => inl (HTTPException 404 "Note not found")
            end,
            with_rows db (delete_rows i (rows tbl)) (seq tbl))
      else (inl OverflowError, db)
  end.
Proof.
  unfold delete_note, bind, execute_delete.
  destruct (Env.write_error env) as [err|]; [reflexivity|].
  rewrite Hdb. destruct (bind_id i (rows tbl)); [|reflexivity].
  unfold commit, ret, with_rows.
  destruct (select_by_id i (rows tbl)) as [r|] eqn:E.
  - apply select_by_id_Some in E. destruct E as [Hin Hid].
    assert (Hhit : In r (filter (fun r => Row.id r =? i) (rows tbl))).
    { apply filter_In. split; [exact Hin | now apply Z.eqb_eq]. }
    destruct (filter _ (rows tbl)) as [|x l]; [contradiction|].
    reflexivity.
  - now rewrite (rowcount_absent _ _ E).
Qed.

End Handlers.

(** The row an insert adds is the one read back under its rowid. *)
Lemma select_inserted (t : Table) (r : Row.t) :
  Row.id r = next_rowid t ->
  select_by_id (next_rowid t) (rows t ++ [r]) = Some r.
Proof.
  intros Hid. rewrite select_by_id_app, next_rowid_fresh.
  unfold select_by_id. cbn [find]. rewrite Hid, Z.eqb_refl. reflexivity.
Qed.

Lemma read_back_valid (i : Z) (msg : string) (db : Database) (r : Row.t) :
  select_by_id i (stored db) = Some r ->
  row_valid r ->
  read_back i msg db = (inr (note_of_row r), db).
Proof.
  intros Hsel [Ht Hc]. unfold read_back, NoteOut.of_dict.
  rewrite Hsel, Ht, Hc. reflexivity.
Qed.

Lemma read_back_gone (i : Z) (msg : string) (db : Database) :
  select_by_id i (stored db) = None ->
  exists e,
    fst (read_back i msg db) = inl e
    /\ status_of e = 500
    /\ kind_of e = Storage.
Proof.
  intros Hsel. unfold read_back. rewrite Hsel.
  destruct (INTEGER_fits i); eexists; (split; [reflexivity|]);
    split; reflexivity.
Qed.

(** C1. For every valid title and content, creating a note answers with a
    note whose [created_at] equals its [updated_at], and getting the
    returned id then answers with a note of that title and content. *)
Theorem create_then_get
        (now : Z) (db : Database) (tbl : Table) (t c : string) :
  notes db = Some tbl ->
  (1 <= String.length t <= 200)%nat ->
  (1 <= String.length c)%nat ->
  exists n db',
    post_notes (Env.quiet now) (Body.make (Some t) (Some c)) db = (inr n, db')
    /\ NoteOut.created_at n = NoteOut.updated_at n
    /\ exists n',
        get_note (NoteOut.id n) db' = (inr n', db')
        /\ NoteOut.title n' = t
        /\ NoteOut.content n' = c.
Proof.
  intros Hdb Ht Hc.
  set (p := NoteCreate.make t c).
  set (r := inserted_row (Env.quiet now) p tbl).
  set (db' := with_rows db (rows tbl ++ [r]) (next_rowid tbl)).
  assert (Hr : row_valid r).
  { split; [now apply title_ok_iff | now apply content_ok_iff]. }
  assert (Hsel : select_by_id (next_rowid tbl) (stored db') = Some r).
  { apply (select_inserted tbl r). reflexivity. }
  exists (note_of_row r), db'.
  split; [|split; [reflexivity|]].
  - unfold post_notes. rewrite (parse_create_valid t c Ht Hc).
    rewrite (create_note_run _ db tbl Hdb).
    cbn [Env.quiet Env.write_error].
    apply read_back_valid; assumption.
  - exists (note_of_row r). split; [|split; reflexivity].
    rewrite (get_note_run db' (mkTable (rows tbl ++ [r]) (next_rowid tbl)))
      by reflexivity.
    cbn [rows note_of_row NoteOut.id Row.id r inserted_row].
    change (select_by_id (next_rowid tbl) (stored db') = Some r) in Hsel.
    unfold stored in Hsel. cbn [db' with_rows notes rows] in Hsel.
    rewrite Hsel. now apply NoteOut_of_valid.
Qed.

Lemma create_then_get_witness :
  exists n db',
    post_notes (Env.quiet 10) (Body.make (Some "Shopping") (Some "Milk"))
               (snd (init_db empty_database)) = (inr n, db')
    /\ NoteOut.created_at n = NoteOut.updated_at n
    /\ exists n',
        get_note (NoteOut.id n) db' = (inr n', db')
        /\ NoteOut.title n' = "Shopping"
        /\ NoteOut.content n' = "Milk".
Proof.
  apply (create_then_get 10 (snd (init_db empty_database)) (mkTable [] 0)).
  - reflexivity.
  - cbn. lia.
  - cbn. lia.
Defined.

Section Updating.

Variables (i now : Z) (trigger : bool) (t c : string).

Local Abbreviation upd := (update_where i now trigger t c).

Lemma update_where_id (r : Row.t) : Row.id (upd r) = Row.id r.
Proof.
  unfold update_where. now destruct (Row.id r =? i).
Qed.

Lemma update_where_ids (rs : list Row.t) :
  map Row.id (map upd rs) = map Row.id rs.
Proof.
  rewrite map_map. apply map_ext, update_where_id.
Qed.

Lemma select_updated (rs : list Row.t) (old : Row.t) :
  select_by_id i rs = Some old ->
  select_by_id i (map upd rs) = Some (update_row now trigger t c old).
Proof.
  intros Hold. rewrite (select_by_id_map upd i rs update_where_id), Hold.
  apply select_by_id_Some in Hold. destruct Hold as [_ Hid].
  cbn [option_map]. unfold update_where.
  now rewrite Hid, Z.eqb_refl.
Qed.

Lemma select_not_updated (rs : list Row.t) (j : Z) :
  j <> i -> select_by_id j (map upd rs) = select_by_id j rs.
Proof.
  intros Hj. rewrite (select_by_id_map upd j rs update_where_id).
  destruct (select_by_id j rs) as [r|] eqn:E; [|reflexivity].
  apply select_by_id_Some in E. destruct E as [_ Hid].
  cbn [option_map]. unfold update_where.
  assert (Hne : (Row.id r =? i) = false) by (apply Z.eqb_neq; congruence).
  now rewrite Hne.
Qed.

End Updating.

(** C3. For every existing note and every valid new title, an update that
    supplies the title and omits the content, at a time not before the
    note's [updated_at], answers with the note under its new title; its
    content and [created_at] are those it had, its [updated_at] is not
    before the one it had (it is the time of the update when the trigger
    exists), and no other note of the store changes. *)
Theorem update_title_only
        (now : Z) (db : Database) (tbl : Table) (note_id : Z)
        (old : Row.t) (t : string) :
  notes db = Some tbl ->
  select_by_id note_id (rows tbl) = Some old ->
  (1 <= String.length t <= 200)%nat ->
  (1 <= String.length (Row.content old))%nat ->
  Row.updated_at old <= now ->
  exists n db',
    put_note (Env.quiet now) note_id (Body.make (Some t) None) db
    = (inr n, db')
    /\ NoteOut.id n = note_id
    /\ NoteOut.title n = t
    /\ NoteOut.content n = Row.content old
    /\ NoteOut.created_at n = Row.created_at old
    /\ Row.updated_at old <= NoteOut.updated_at n
    /\ (notes_set_updated_at db = true -> NoteOut.updated_at n = now)
    /\ option_map note_of_row (select_by_id note_id (stored db')) = Some n
    /\ forall j, j <> note_id ->
         select_by_id j (stored db') = select_by_id j (rows tbl).
Proof.
  intros Hdb Hold Ht Hc Hclock.
  set (u := NoteUpdate.make (Some t) None).
  set (trigger := notes_set_updated_at db).
  set (r := update_row now trigger t (Row.content old) old).
  set (rs := map (update_where note_id now trigger t (Row.content old))
                 (rows tbl)).
  set (db' := with_rows db rs (seq tbl)).
  assert (Hsel : select_by_id note_id (stored db') = Some r).
  { apply select_updated, Hold. }
  assert (Hr : row_valid r).
  { split; [now apply title_ok_iff | now apply content_ok_iff]. }
  assert (Hparse : NoteUpdate.parse (Body.make (Some t) None) = Some u).
  { unfold NoteUpdate.parse. cbn [Body.title Body.content NoteUpdate.opt_ok].
    apply title_ok_iff in Ht. now rewrite Ht. }
  exists (note_of_row r), db'.
  split; [|repeat split].
  - unfold put_note. rewrite Hparse.
    rewrite (update_note_run _ db tbl Hdb note_id u old); [| |exact Hold].
    + cbn [Env.quiet Env.write_error].
      now apply read_back_valid.
    + left. discriminate.
  - cbn. now apply select_by_id_Some in Hold.
  - cbn. unfold r, update_row. cbn. destruct trigger; lia.
  - intros Htrigger. cbn. fold trigger in Htrigger. now rewrite Htrigger.
  - now rewrite Hsel.
  - intros j Hj. apply select_not_updated, Hj.
Qed.

Lemma update_title_only_witness :
  exists n db',
    put_note (Env.quiet 15) 1 (Body.make (Some "Groceries") None)
             sample_database = (inr n, db')
    /\ NoteOut.id n = 1
    /\ NoteOut.title n = "Groceries"
    /\ NoteOut.content n = "a"
    /\ NoteOut.created_at n = 10
    /\ 15 <= NoteOut.updated_at n
    /\ (true = true -> NoteOut.updated_at n = 15)
    /\ option_map note_of_row (select_by_id 1 (stored db')) = Some n
    /\ forall j, j <> 1 ->
         select_by_id j (stored db')
         = select_by_id j (stored sample_database).
Proof.
  apply (update_title_only 15 sample_database
           (mkTable (stored sample_database) 3) 1
           (Row.make 1 "A" "a" 10 15) "Groceries").
  - reflexivity.
  - reflexivity.
  - cbn. lia.
  - cbn. lia.
  - cbn. lia.
Defined.

Section Rejections.

Variables (env : Env.t) (db : Database).

Lemma with_rows_same (tbl : Table) :
  notes db = Some tbl -> with_rows db (rows tbl) (seq tbl) = db.
Proof.
  destruct db as [n trig], tbl as [rs sq]. cbn. now intros ->.
Qed.

(** The check on the payload comes before the connection is opened. *)
Lemma put_note_no_fields (i : Z) :
  put_note env i (Body.make None None) db =
  (inl (HTTPException 400
          "At least one of 'title' or 'content' must be provided"), db).
Proof. reflexivity. Qed.

Lemma post_notes_rejects (b : Body.t) :
  NoteCreate.parse b = None ->
  post_notes env b db = (inl RequestValidationError, db).
Proof. intros H. unfold post_notes. now rewrite H. Qed.

Lemma put_note_rejects (i : Z) (b : Body.t) :
  NoteUpdate.parse b = None ->
  put_note env i b db = (inl RequestValidationError, db).
Proof. intros H. unfold put_note. now rewrite H. Qed.

End Rejections.

(** C5. For every existing note, an update that omits both the title and
    the content fails as a validation error (status 400) and leaves the
    store as it was. *)
Theorem update_without_fields_existing
        (env : Env.t) (db : Database) (note_id : Z) (old : Row.t) :
  select_by_id note_id (stored db) = Some old ->
  exists e,
    put_note env note_id (Body.make None None) db = (inl e, db)
    /\ status_of e = 400
    /\ kind_of e = Validation.
Proof.
  intros _. eexists. split; [apply put_note_no_fields|].
  split; reflexivity.
Qed.

Lemma update_without_fields_existing_witness :
  exists e,
    put_note (Env.quiet 20) 2 (Body.make None None) sample_database
    = (inl e, sample_database)
    /\ status_of e = 400
    /\ kind_of e = Validation.
Proof.
  apply (update_without_fields_existing (Env.quiet 20) sample_database 2
           (Row.make 2 "B" "b" 10 10)).
  reflexivity.
Defined.

(** C10. For every id that is not in the store, in or out of the range of
    an SQLite INTEGER, an update that omits both the title and the content
    fails as a validation error (status 400), not as a missing note: the
    payload is checked before the note is looked up, while an update that
    supplies a field is, for an id that is an INTEGER, answered 404. *)
Theorem update_without_fields_missing
        (env : Env.t) (db : Database) (tbl : Table) (note_id : Z) :
  notes db = Some tbl ->
  select_by_id note_id (rows tbl) = None ->
  (exists e,
      put_note env note_id (Body.make None None) db = (inl e, db)
      /\ kind_of e = Validation
      /\ kind_of e <> NotFound)
  /\ (forall u, some_field u ->
        INTEGER_fits note_id = true ->
        exists e,
          update_note env note_id u db = (inl e, db)
          /\ kind_of e = NotFound).
Proof.
  intros Hdb Hnone. split.
  - eexists. split; [apply put_note_no_fields|].
    split; [reflexivity | discriminate].
  - intros u Hu Hfits. eexists. split.
    + rewrite (update_note_missing env db tbl Hdb note_id u Hu Hnone), Hfits.
      reflexivity.
    + reflexivity.
Qed.

Lemma update_without_fields_missing_witness :
  (exists e,
      put_note (Env.quiet 20) (2 ^ 63) (Body.make None None) sample_database
      = (inl e, sample_database)
      /\ kind_of e = Validation
      /\ kind_of e <> NotFound)
  /\ (forall u, some_field u ->
        INTEGER_fits 7 = true ->
        exists e,
          update_note (Env.quiet 20) 7 u sample_database
          = (inl e, sample_database)
          /\ kind_of e = NotFound).
Proof.
  split.
  - apply (update_without_fields_missing (Env.quiet 20) sample_database
             (mkTable (stored sample_database) 3) (2 ^ 63)).
    + reflexivity.
    + reflexivity.
  - apply (update_without_fields_missing (Env.quiet 20) sample_database
             (mkTable (stored sample_database) 3) 7).
    + reflexivity.
    + reflexivity.
Defined.




(** C7. A create or update request whose title is empty, whose content is
    empty, or whose title is longer than 200 characters is rejected as a
    validation error, whatever the store and the id, and the store is left
    as it was. *)
Theorem invalid_fields_rejected
        (env : Env.t) (db : Database) (note_id : Z) (b : Body.t) :
  rejected_fields b ->
  post_notes env b db = (inl RequestValidationError, db)
  /\ put_note env note_id b db = (inl RequestValidationError, db)
  /\ kind_of RequestValidationError = Validation.
Proof.
  intros Hb.
  assert (Hbad : NoteUpdate.opt_ok NoteBase.title_ok (Body.title b)
                 && NoteUpdate.opt_ok NoteBase.content_ok (Body.content b)
                 = false).
  { destruct Hb as [Ht | [Hc | [t [Ht Hlen]]]].
    - now rewrite Ht.
    - rewrite Hc. apply andb_false_r.
    - rewrite Ht. cbn [NoteUpdate.opt_ok].
      destruct (NoteBase.title_ok t) eqn:E; [|reflexivity].
      apply title_ok_iff in E. lia. }
  split; [|split; [|reflexivity]].
  - apply post_notes_rejects. unfold NoteCreate.parse.
    destruct (Body.title b) as [t|], (Body.content b) as [c|];
      try reflexivity.
    cbn [NoteUpdate.opt_ok] in Hbad. now rewrite Hbad.
  - apply put_note_rejects. unfold NoteUpdate.parse. now rewrite Hbad.
Qed.

Lemma invalid_fields_rejected_witness :
  post_notes (Env.quiet 20) (Body.make (Some "Shopping") (Some ""))
             sample_database
  = (inl RequestValidationError, sample_database)
  /\ put_note (Env.quiet 20) 1 (Body.make (Some "Shopping") (Some ""))
              sample_database
     = (inl RequestValidationError, sample_database)
  /\ kind_of RequestValidationError = Validation.
Proof.
  apply (invalid_fields_rejected (Env.quiet 20) sample_database 1
           (Body.make (Some "Shopping") (Some ""))).
  right. left. reflexivity.
Defined.

(** C9. [init_db] never fails; once it has run, the [notes] table and the
    trigger [notes_set_updated_at] exist, the rows that were stored are
    kept, and running it again changes nothing. *)
Theorem init_db_idempotent (db : Database) :
  exists db1,
    init_db db = (inr tt, db1)
    /\ init_db db1 = (inr tt, db1)
    /\ schema_ready db1
    /\ stored db1 = stored db.
Proof.
  destruct db as [[tbl|] [|]]; eexists;
    (split; [reflexivity|]);
    (split; [reflexivity|]);
    (split; [split; [discriminate | reflexivity] | reflexivity]).
Qed.

(** C4, as stated, fails: a constraint violation the engine raises on the
    insert is caught by the handler and answered 400, a client error. *)
Lemma integrity_error_is_client_error :
  post_notes
    (Env.make 20 (Some (IntegrityError "UNIQUE constraint failed: notes.title")) [])
    (Body.make (Some "Shopping") (Some "Milk")) sample_database
  = (inl (HTTPException 400 "Invalid note data: UNIQUE constraint failed: notes.title"),
     sample_database)
  /\ client_error
       (HTTPException 400 "Invalid note data: UNIQUE constraint failed: notes.title")
     = true
  /\ kind_of
       (HTTPException 400 "Invalid note data: UNIQUE constraint failed: notes.title")
     <> Storage.
Proof.
  split; [reflexivity|]. split; [reflexivity | discriminate].
Qed.

(** C4, amended. During a create or an update of an existing note, a
    constraint violation raised by the writing statement is answered 400
    (a client error) and the store is left as it was; any other error of
    the engine leaves the handler as it is and is a server error; and a
    row that cannot be read back after the commit is answered 500. *)
Theorem store_failures_surfaced
        (env : Env.t) (db : Database) (tbl : Table)
        (p : NoteCreate.t) (note_id : Z) (u : NoteUpdate.t) (old : Row.t) :
  notes db = Some tbl ->
  some_field u ->
  select_by_id note_id (rows tbl) = Some old ->
  (forall m, Env.write_error env = Some (IntegrityError m) ->
     exists e,
       create_note env p db = (inl e, db)
       /\ update_note env note_id u db = (inl e, db)
       /\ status_of e = 400
       /\ client_error e = true)
  /\ (forall m, Env.write_error env = Some (OperationalError m) ->
        create_note env p db = (inl (Sqlite3 (OperationalError m)), db)
        /\ update_note env note_id u db
           = (inl (Sqlite3 (OperationalError m)), db)
        /\ kind_of (Sqlite3 (OperationalError m)) = Storage)
  /\ (Env.write_error env = None ->
      (In (next_rowid tbl) (Env.concurrent_deletes env) ->
       exists e,
         fst (create_note env p db) = inl e
         /\ status_of e = 500
         /\ kind_of e = Storage)
      /\ (In note_id (Env.concurrent_deletes env) ->
          exists e,
            fst (update_note env note_id u db) = inl e
            /\ status_of e = 500
            /\ kind_of e = Storage)).
Proof.
  intros Hdb Hu Hold.
  rewrite (create_note_run env db tbl Hdb p).
  rewrite (update_note_run env db tbl Hdb note_id u old Hu Hold).
  split; [|split].
  - intros m ->. eexists.
    split; [reflexivity|]. split; [reflexivity|]. split; reflexivity.
  - intros m ->. split; [reflexivity|]. split; reflexivity.
  - intros ->. split; intros Hgone;
      now apply read_back_gone, select_by_id_concurrently_deleted.
Qed.

Lemma store_failures_surfaced_witness :
  exists e,
    fst (update_note (Env.make 20 None [1]) 1
                     (NoteUpdate.make (Some "Groceries") None)
                     sample_database) = inl e
    /\ status_of e = 500
    /\ kind_of e = Storage.
Proof.
  apply (store_failures_surfaced
           (Env.make 20 None [1]) sample_database
           (mkTable (stored sample_database) 3)
           (NoteCreate.make "Shopping" "Milk") 1
           (NoteUpdate.make (Some "Groceries") None)
           (Row.make 1 "A" "a" 10 15)).
  - reflexivity.
  - left. discriminate.
  - reflexivity.
  - reflexivity.
  - cbn. left. reflexivity.
Defined.

(* ===================================================================== *)
(** ** The invariants of the data model *)
(* ===================================================================== *)

Section Writes.

(** What the stored fields are known to satisfy: anything the field
    constraints of [NoteBase] imply. *)
Variables Pt Pc : string -> Prop.
Hypothesis title_ok_Pt : forall s, NoteBase.title_ok s = true -> Pt s.
Hypothesis content_ok_Pc : forall s, NoteBase.content_ok s = true -> Pc s.

Variable now : Z.

Local Abbreviation good := (rows_good Pt Pc now).

Lemma Forall_delete_rows (P : Row.t -> Prop) (i : Z) (rs : list Row.t) :
  Forall P rs -> Forall P (delete_rows i rs).
Proof.
  rewrite !Forall_forall. intros H r Hr.
  apply In_delete_rows in Hr. now apply H.
Qed.

Lemma ids_unique_delete_rows (i : Z) (rs : list Row.t) :
  ids_unique rs -> ids_unique (delete_rows i rs).
Proof.
  unfold ids_unique, delete_rows.
  induction rs as [|x rs IH]; cbn [map filter]; intros H; [constructor|].
  inversion H as [|? ? Hnotin Hnd]; subst.
  destruct (negb (Row.id x =? i)); [|now apply IH].
  cbn [map]. constructor; [|now apply IH].
  intros Hin. apply Hnotin.
  apply in_map_iff in Hin. destruct Hin as [y [Hy Hin]].
  apply filter_In in Hin. apply in_map_iff. exists y. tauto.
Qed.

Lemma good_delete_rows (i : Z) (rs : list Row.t) :
  good rs -> good (delete_rows i rs).
Proof.
  intros (H1 & H2 & H3 & H4).
  repeat split;
    [now apply ids_unique_delete_rows | now apply Forall_delete_rows ..].
Qed.

Lemma good_after_others (env : Env.t) (rs : list Row.t) :
  good rs -> good (after_others env rs).
Proof.
  intros H. unfold after_others.
  induction (Env.concurrent_deletes env) as [|i ids IH]; cbn [fold_right];
    [exact H | now apply good_delete_rows].
Qed.

Lemma good_insert (t : Table) (r : Row.t) :
  Row.id r = next_rowid t ->
  Row.created_at r = now ->
  Row.updated_at r = now ->
  Pt (Row.title r) ->
  Pc (Row.content r) ->
  good (rows t) -> good (rows t ++ [r]).
Proof.
  intros Hid Hc Hu Ht Hco (H1 & H2 & H3 & H4).
  repeat split.
  - unfold ids_unique in *. rewrite map_app. cbn [map].
    eapply Permutation_NoDup; [apply Permutation_cons_append|].
    constructor; [|exact H1].
    intros Hin. apply in_map_iff in Hin. destruct Hin as [y [Hy Hin]].
    pose proof (select_by_id_None _ _ (next_rowid_fresh t) y Hin).
    congruence.
  - apply Forall_app. split; [exact H2|]. constructor; [lia|constructor].
  - apply Forall_app. split; [exact H3|]. now repeat constructor.
  - apply Forall_app. split; [exact H4|]. constructor; [lia|constructor].
Qed.

Lemma good_update (i : Z) (trigger : bool) (t c : string)
      (rs : list Row.t) :
  Pt t -> Pc c ->
  good rs -> good (map (update_where i now trigger t c) rs).
Proof.
  intros Ht Hc (H1 & H2 & H3 & H4).
  assert (Hall : Forall (fun r =>
            (Row.created_at r <= Row.updated_at r
             /\ Pt (Row.title r) /\ Pc (Row.content r))
            /\ Row.created_at r <= now) rs).
  { unfold timestamps_ordered, fields_satisfy in *.
    rewrite Forall_forall in *. intros r Hr.
    specialize (H2 r Hr). specialize (H3 r Hr). specialize (H4 r Hr).
    tauto. }
  clear H2 H3 H4.
  repeat split.
  - unfold ids_unique. now rewrite update_where_ids.
  - apply Forall_map. eapply Forall_impl; [|exact Hall].
    intros r [[Hr _] Hn]. unfold update_where, update_row.
    destruct (Row.id r =? i); [|exact Hr].
    cbn. now destruct trigger.
  - apply Forall_map. eapply Forall_impl; [|exact Hall].
    intros r [[_ Hr] _]. unfold update_where, update_row.
    destruct (Row.id r =? i); [|exact Hr]. cbn. tauto.
  - apply Forall_map. eapply Forall_impl; [|exact Hall].
    intros r [_ Hn]. unfold update_where, update_row.
    now destruct (Row.id r =? i).
Qed.

Lemma parse_create_fields (b : Body.t) (p : NoteCreate.t) :
  NoteCreate.parse b = Some p ->
  Pt (NoteCreate.title p) /\ Pc (NoteCreate.content p).
Proof.
  unfold NoteCreate.parse.
  destruct (Body.title b) as [t|], (Body.content b) as [c|];
    try discriminate.
  destruct (NoteBase.title_ok t) eqn:Et; [|discriminate].
  destruct (NoteBase.content_ok c) eqn:Ec; [|discriminate].
  intros [= <-]. cbn. auto.
Qed.

Lemma parse_update_fields (b : Body.t) (u : NoteUpdate.t) (old : Row.t) :
  NoteUpdate.parse b = Some u ->
  Pt (Row.title old) /\ Pc (Row.content old) ->
  Pt (new_title u old) /\ Pc (new_content u old).
Proof.
  unfold NoteUpdate.parse, new_title, new_content.
  destruct (NoteUpdate.opt_ok NoteBase.title_ok (Body.title b)) eqn:Et;
    [|discriminate].
  destruct (NoteUpdate.opt_ok NoteBase.content_ok (Body.content b)) eqn:Ec;
    [|discriminate].
  intros [= <-] [Hot Hoc]. cbn. split.
  - destruct (Body.title b) as [t|]; [auto | exact Hot].
  - destruct (Body.content b) as [c|]; [auto | exact Hoc].
Qed.

End Writes.

Section Reads.

(** Reading does not write. *)
Lemma snd_read_back (i : Z) (msg : string) (db : Database) :
  snd (read_back i msg db) = db.
Proof.
  unfold read_back. destruct (select_by_id i (stored db)) as [d|];
    [|now destruct (INTEGER_fits i)].
  now destruct (NoteOut.of_dict d).
Qed.

Lemma snd_NoteOut_of (d : Row.t) (db : Database) :
  snd (NoteOut_of d db) = db.
Proof. unfold NoteOut_of. now destruct (NoteOut.of_dict d). Qed.

Lemma snd_NoteOut_of_all (ds : list Row.t) (db : Database) :
  snd (NoteOut_of_all ds db) = db.
Proof.
  induction ds as [|d ds IH]; [reflexivity|].
  cbn [NoteOut_of_all]. unfold bind.
  pose proof (snd_NoteOut_of d db) as Hd.
  destruct (NoteOut_of d db) as [[e|n] db1]; cbn [snd] in Hd; subst db1;
    [reflexivity|].
  destruct (NoteOut_of_all ds db) as [[e|ns] db2]; cbn [snd] in IH;
    now subst db2.
Qed.

Lemma snd_get_note (i : Z) (db : Database) : snd (get_note i db) = db.
Proof.
  destruct (notes db) as [t|] eqn:Hdb.
  - rewrite (get_note_run db t Hdb).
    destruct (select_by_id i (rows t)) as [d|]; [|reflexivity].
    apply snd_NoteOut_of.
  - unfold get_note, bind, fetch_one_note. now rewrite Hdb.
Qed.

Lemma snd_list_notes (db : Database) : snd (list_notes db) = db.
Proof.
  unfold list_notes, bind, select_all_ordered.
  destruct (notes db) as [t|]; [|reflexivity].
  apply snd_NoteOut_of_all.
Qed.

Lemma snd_bind_ret {A B} (m : M A) (f : A -> B) (db : Database) :
  snd (bind m (fun a => ret (f a)) db) = snd (m db).
Proof. unfold bind, ret. now destruct (m db) as [[e|a] db']. Qed.

(** Without the table every statement fails and nothing is written. *)
Lemma create_note_no_table (env : Env.t) (p : NoteCreate.t)
      (db : Database) :
  notes db = None -> snd (create_note env p db) = db.
Proof.
  intros Hdb.
  unfold create_note, try_except_IntegrityError, bind, execute_insert.
  destruct (Env.write_error env) as [[m|m]|]; [reflexivity|reflexivity|].
  now rewrite Hdb.
Qed.

Lemma update_note_no_table (env : Env.t) (i : Z) (u : NoteUpdate.t)
      (db : Database) :
  notes db = None -> snd (update_note env i u db) = db.
Proof.
  intros Hdb. unfold update_note.
  destruct (NoteUpdate.title u), (NoteUpdate.content u);
    try reflexivity;
    unfold try_except_IntegrityError, bind, fetch_one_note;
    now rewrite Hdb.
Qed.

Lemma delete_note_no_table (env : Env.t) (i : Z) (db : Database) :
  notes db = None -> snd (delete_note env i db) = db.
Proof.
  intros Hdb. unfold delete_note, bind, execute_delete.
  destruct (Env.write_error env) as [err|]; [reflexivity|].
  now rewrite Hdb.
Qed.

Lemma serve_no_table (env : Env.t) (rq : Request) (db : Database) :
  notes db = None -> snd (serve env rq db) = db.
Proof.
  intros Hdb. destruct rq as [b| |i|i b|i]; unfold serve;
    rewrite ?snd_bind_ret.
  - unfold post_notes. destruct (NoteCreate.parse b); [|reflexivity].
    now apply create_note_no_table.
  - apply snd_list_notes.
  - apply snd_get_note.
  - unfold put_note. destruct (NoteUpdate.parse b); [|reflexivity].
    now apply update_note_no_table.
  - now apply delete_note_no_table.
Qed.

End Reads.

Section Serving.

Variables Pt Pc : string -> Prop.
Hypothesis title_ok_Pt : forall s, NoteBase.title_ok s = true -> Pt s.
Hypothesis content_ok_Pc : forall s, NoteBase.content_ok s = true -> Pc s.

Variables (env : Env.t) (db : Database).

Local Abbreviation good := (rows_good Pt Pc (Env.CURRENT_TIMESTAMP env)).

Lemma post_notes_good (tbl : Table) (b : Body.t) :
  notes db = Some tbl ->
  good (rows tbl) ->
  good (stored (snd (post_notes env b db))).
Proof.
  intros Hdb Hgood.
  assert (Hsame : good (stored db)).
  { unfold stored. now rewrite Hdb. }
  unfold post_notes. destruct (NoteCreate.parse b) as [p|] eqn:Hp;
    [|exact Hsame].
  rewrite (create_note_run env db tbl Hdb p).
  destruct (Env.write_error env) as [[m|m]|]; [exact Hsame|exact Hsame|].
  rewrite snd_read_back.
  apply (parse_create_fields Pt Pc title_ok_Pt content_ok_Pc) in Hp.
  destruct Hp as [Ht Hc].
  apply good_after_others, good_insert; try reflexivity; assumption.
Qed.

Lemma put_note_good (tbl : Table) (i : Z) (b : Body.t) :
  notes db = Some tbl ->
  good (rows tbl) ->
  good (stored (snd (put_note env i b db))).
Proof.
  intros Hdb Hgood.
  assert (Hsame : good (stored db)).
  { unfold stored. now rewrite Hdb. }
  unfold put_note. destruct (NoteUpdate.parse b) as [u|] eqn:Hu;
    [|exact Hsame].
  destruct (NoteUpdate.title u) as [t|] eqn:Et;
    [|destruct (NoteUpdate.content u) as [c|] eqn:Ec].
  3: { unfold update_note. rewrite Et, Ec. exact Hsame. }
  all: assert (Hsome : some_field u)
    by (unfold some_field; rewrite ?Et, ?Ec;
        first [left; discriminate | right; discriminate]).
  all: destruct (select_by_id i (rows tbl)) as [old|] eqn:Hold;
    [|rewrite (update_note_missing env db tbl Hdb i u Hsome Hold);
      exact Hsame].
  all: rewrite (update_note_run env db tbl Hdb i u old Hsome Hold).
  all: destruct (Env.write_error env) as [[m|m]|];
    [exact Hsame|exact Hsame|].
  all: rewrite snd_read_back.
  all: assert (Hfields : Pt (new_title u old) /\ Pc (new_content u old))
    by (apply (parse_update_fields Pt Pc title_ok_Pt content_ok_Pc
                                   b u old Hu);
        destruct Hgood as (_ & _ & Hne & _);
        unfold fields_satisfy in Hne; rewrite Forall_forall in Hne;
        apply Hne; now apply select_by_id_Some in Hold).
  all: destruct Hfields as [Ht Hc].
  all: now apply good_after_others, good_update.
Qed.

Lemma delete_note_good (tbl : Table) (i : Z) :
  notes db = Some tbl ->
  good (rows tbl) ->
  good (stored (snd (delete_note env i db))).
Proof.
  intros Hdb Hgood.
  assert (Hsame : good (stored db)).
  { unfold stored. now rewrite Hdb. }
  rewrite (delete_note_run env db tbl Hdb).
  destruct (Env.write_error env) as [err|]; [exact Hsame|].
  destruct (bind_id i (rows tbl)); [|exact Hsame].
  now apply good_delete_rows.
Qed.

(** Every request keeps the rows good under the time it runs at. *)
Lemma serve_good (rq : Request) :
  good (stored db) -> good (stored (snd (serve env rq db))).
Proof.
  intros Hgood.
  destruct (notes db) as [tbl|] eqn:Hdb;
    [|now rewrite serve_no_table].
  assert (Htbl : good (rows tbl)).
  { unfold stored in Hgood. now rewrite Hdb in Hgood. }
  destruct rq as [b| |i|i b|i]; unfold serve; rewrite ?snd_bind_ret.
  - now apply (post_notes_good tbl).
  - now rewrite snd_list_notes.
  - now rewrite snd_get_note.
  - now apply (put_note_good tbl).
  - now apply (delete_note_good tbl).
Qed.

Lemma rows_good_later (clock now : Z) (rs : list Row.t) :
  clock <= now -> rows_good Pt Pc clock rs -> rows_good Pt Pc now rs.
Proof.
  intros Hle (H1 & H2 & H3 & H4). repeat split; try assumption.
  eapply Forall_impl; [|exact H4]. cbv beta. intros r Hr. lia.
Qed.

End Serving.

Section Reaching.

(** No request drops the table or the trigger. *)
Lemma serve_schema_ready (env : Env.t) (rq : Request) (db : Database) :
  schema_ready db -> schema_ready (snd (serve env rq db)).
Proof.
  intros Hready. pose proof Hready as [Htable Htrigger].
  destruct (notes db) as [tbl|] eqn:Hdb; [clear Htable | congruence].
  assert (Hwith : forall rs sq, schema_ready (with_rows db rs sq)).
  { intros rs sq. split; [discriminate | exact Htrigger]. }
  destruct rq as [b| |i|i b|i]; unfold serve; rewrite ?snd_bind_ret.
  - unfold post_notes. destruct (NoteCreate.parse b) as [p|];
      [|exact Hready].
    rewrite (create_note_run env db tbl Hdb p).
    destruct (Env.write_error env) as [[m|m]|];
      [exact Hready | exact Hready |].
    rewrite snd_read_back. apply Hwith.
  - now rewrite snd_list_notes.
  - now rewrite snd_get_note.
  - unfold put_note. destruct (NoteUpdate.parse b) as [u|];
      [|exact Hready].
    destruct (NoteUpdate.title u) as [t|] eqn:Et;
      [|destruct (NoteUpdate.content u) as [c|] eqn:Ec].
    3: { unfold update_note. rewrite Et, Ec. exact Hready. }
    all: assert (Hsome : some_field u)
      by (unfold some_field; rewrite ?Et, ?Ec;
          first [left; discriminate | right; discriminate]).
    all: destruct (select_by_id i (rows tbl)) as [old|] eqn:Hold;
      [|rewrite (update_note_missing env db tbl Hdb i u Hsome Hold);
        exact Hready].
    all: rewrite (update_note_run env db tbl Hdb i u old Hsome Hold).
    all: destruct (Env.write_error env) as [[m|m]|];
      [exact Hready | exact Hready |].
    all: rewrite snd_read_back; apply Hwith.
  - rewrite (delete_note_run env db tbl Hdb).
    destruct (Env.write_error env) as [err|]; [exact Hready|].
    destruct (bind_id i (rows tbl)); [apply Hwith | exact Hready].
Qed.

Lemma reachable_schema_ready (db : Database) (clock : Z) :
  reachable db clock -> schema_ready db.
Proof.
  induction 1 as [clock | db clock env rq Hreach IH Hle].
  - split; [discriminate | reflexivity].
  - now apply serve_schema_ready.
Qed.

Variables Pt Pc : string -> Prop.
Hypothesis title_ok_Pt : forall s, NoteBase.title_ok s = true -> Pt s.
Hypothesis content_ok_Pc : forall s, NoteBase.content_ok s = true -> Pc s.

Lemma reachable_good (db : Database) (clock : Z) :
  reachable db clock -> rows_good Pt Pc clock (stored db).
Proof.
  induction 1 as [clock | db clock env rq Hreach IH Hle].
  - cbn. repeat split; constructor.
  - apply (serve_good Pt Pc title_ok_Pt content_ok_Pc).
    now apply rows_good_later with clock.
Qed.

End Reaching.

Lemma title_ok_non_empty (s : string) : NoteBase.title_ok s = true -> s <> "".
Proof. intros H. apply title_ok_iff in H. apply non_empty_length. lia. Qed.

Lemma content_ok_non_empty (s : string) :
  NoteBase.content_ok s = true -> s <> "".
Proof. intros H. apply content_ok_iff in H. now apply non_empty_length. Qed.

(** The rows of a reachable state fit the [NoteBase] constraints, so
    every one of them can be sent as a [NoteOut]. *)
Lemma reachable_rows_valid (db : Database) (clock : Z) :
  reachable db clock -> Forall row_valid (stored db).
Proof.
  intros Hreach.
  destruct (reachable_good (fun s => NoteBase.title_ok s = true)
                           (fun s => NoteBase.content_ok s = true)
                           (fun s H => H) (fun s H => H) db clock Hreach)
    as (_ & _ & Hvalid & _).
  exact Hvalid.
Qed.

(** C8. Every state the service reaches satisfies the invariants of the
    data model, and every request served on a state that satisfies them, at
    a time not before the stored creation times, leaves a state that
    satisfies them: an id names at most one note, every note has
    [updated_at >= created_at], and no note has an empty title or an empty
    content. *)
Theorem data_model_invariants_hold :
  (forall db clock, reachable db clock -> data_model_invariants db)
  /\ (forall env rq db,
        data_model_invariants db ->
        clock_not_behind db (Env.CURRENT_TIMESTAMP env) ->
        data_model_invariants (snd (serve env rq db))).
Proof.
  split.
  - intros db clock Hreach.
    destruct (reachable_good _ _ title_ok_non_empty content_ok_non_empty
                             db clock Hreach) as (H1 & H2 & H3 & _).
    repeat split; assumption.
  - intros env rq db (H1 & H2 & H3) Hclock.
    destruct (serve_good _ _ title_ok_non_empty content_ok_non_empty
                         env db rq) as (G1 & G2 & G3 & _).
    + repeat split; assumption.
    + repeat split; assumption.
Qed.

Lemma data_model_invariants_hold_witness :
  data_model_invariants
    (snd (serve (Env.quiet 15) (PUT_note 1 (Body.make None (Some "Milk, eggs")))
       (snd (serve (Env.quiet 10)
                   (POST_notes (Body.make (Some "Shopping") (Some "Milk")))
                   (snd (init_db empty_database)))))).
Proof.
  apply (proj1 data_model_invariants_hold _ 15).
  apply (reachable_serve _ 10 (Env.quiet 15)); [|cbn; lia].
  apply (reachable_serve _ 10 (Env.quiet 10)); [|cbn; lia].
  apply reachable_init.
Defined.

(* ===================================================================== *)
(** ** A session *)
(* ===================================================================== *)

(** A body without content is rejected; the first note gets id 1 and is
    the listing; an update of the content keeps the title; after the
    delete the note is gone. *)
Example session :
  let db0 := snd (init_db empty_database) in
  let shopping := Body.make (Some "Shopping") (Some "Milk") in
  let db1 := snd (post_notes (Env.quiet 10) shopping db0) in
  let db2 := snd (put_note (Env.quiet 12) 1
                           (Body.make None (Some "Milk, eggs")) db1) in
  let db3 := snd (delete_note (Env.quiet 13) 1 db2) in
  post_notes (Env.quiet 10) (Body.make (Some "A") None) db0
  = (inl RequestValidationError, db0)
  /\ fst (post_notes (Env.quiet 10) shopping db0)
     = inr (NoteOut.make 1 "Shopping" "Milk" 10 10)
  /\ fst (list_notes db1) = inr [NoteOut.make 1 "Shopping" "Milk" 10 10]
  /\ fst (put_note (Env.quiet 12) 1 (Body.make None (Some "Milk, eggs")) db1)
     = inr (NoteOut.make 1 "Shopping" "Milk, eggs" 10 12)
  /\ fst (delete_note (Env.quiet 13) 1 db2) = inr tt
  /\ fst (get_note 1 db3) = inl (HTTPException 404 "Note not found").
Proof. repeat split. Qed.

(* ===================================================================== *)
(** ** Further properties of the handlers *)
(* ===================================================================== *)

Section Shapes.

Variables (env : Env.t) (db : Database) (tbl : Table).
Hypothesis Hdb : notes db = Some tbl.

Lemma post_notes_written (b : Body.t) :
  written env db tbl (snd (post_notes env b db)).
Proof.
  unfold post_notes. destruct (NoteCreate.parse b) as [p|] eqn:Hp;
    [|constructor].
  rewrite (create_note_run env db tbl Hdb p).
  destruct (Env.write_error env) as [[m|m]|]; [constructor|constructor|].
  rewrite snd_read_back.
  apply (parse_create_fields (fun s => NoteBase.title_ok s = true)
                             (fun s => NoteBase.content_ok s = true)
                             (fun s H => H) (fun s H => H)) in Hp.
  destruct Hp as [Ht Hc]. now constructor.
Qed.

Lemma update_note_written (i : Z) (u : NoteUpdate.t) :
  written env db tbl (snd (update_note env i u db)).
Proof.
  destruct (NoteUpdate.title u) as [t|] eqn:Et;
    [|destruct (NoteUpdate.content u) as [c|] eqn:Ec].
  3: { unfold update_note. rewrite Et, Ec. constructor. }
  all: assert (Hsome : some_field u)
    by (unfold some_field; rewrite ?Et, ?Ec;
        first [left; discriminate | right; discriminate]).
  all: destruct (select_by_id i (rows tbl)) as [old|] eqn:Hold;
    [|rewrite (update_note_missing env db tbl Hdb i u Hsome Hold);
      constructor].
  all: rewrite (update_note_run env db tbl Hdb i u old Hsome Hold).
  all: destruct (Env.write_error env) as [[m|m]|];
    [constructor|constructor|].
  all: rewrite snd_read_back; constructor.
Qed.

Lemma delete_note_written (i : Z) :
  written env db tbl (snd (delete_note env i db)).
Proof.
  rewrite (delete_note_run env db tbl Hdb).
  destruct (Env.write_error env) as [err|]; [constructor|].
  destruct (bind_id i (rows tbl)); constructor.
Qed.

Lemma serve_written (rq : Request) :
  written env db tbl (snd (serve env rq db)).
Proof.
  destruct rq as [b| |i|i b|i]; unfold serve; rewrite ?snd_bind_ret.
  - apply post_notes_written.
  - rewrite snd_list_notes. constructor.
  - rewrite snd_get_note. constructor.
  - unfold put_note. destruct (NoteUpdate.parse b) as [u|]; [|constructor].
    apply update_note_written.
  - apply delete_note_written.
Qed.

End Shapes.

Section Counter.

Lemma max_rowid_nonneg (rs : list Row.t) : 0 <= max_rowid rs.
Proof.
  unfold max_rowid. induction rs as [|r rs IH]; cbn [fold_right]; lia.
Qed.

Lemma next_rowid_above (t : Table) :
  seq t < next_rowid t
  /\ 1 <= next_rowid t
  /\ forall r, In r (rows t) -> Row.id r < next_rowid t.
Proof.
  unfold next_rowid. pose proof (max_rowid_nonneg (rows t)).
  repeat split; try lia.
  intros r Hr. pose proof (max_rowid_ge _ _ Hr). lia.
Qed.

Lemma Forall_after_others (P : Row.t -> Prop) (env : Env.t)
      (rs : list Row.t) :
  Forall P rs -> Forall P (after_others env rs).
Proof.
  intros H. unfold after_others.
  induction (Env.concurrent_deletes env) as [|i ids IH]; cbn [fold_right];
    [exact H | now apply Forall_delete_rows].
Qed.

(** No write lowers the counter. *)
Lemma written_counter (env : Env.t) (db db' : Database) (tbl : Table) :
  notes db = Some tbl -> written env db tbl db' -> counter db <= counter db'.
Proof.
  intros Hdb Hw. unfold counter at 1. rewrite Hdb.
  destruct Hw; unfold counter; cbn [with_rows notes seq];
    rewrite ?Hdb; try lia.
  pose proof (next_rowid_above tbl). lia.
Qed.

Lemma serve_counter (env : Env.t) (rq : Request) (db : Database) :
  counter db <= counter (snd (serve env rq db)).
Proof.
  destruct (notes db) as [tbl|] eqn:Hdb.
  - apply (written_counter env db _ tbl Hdb), serve_written, Hdb.
  - rewrite serve_no_table by exact Hdb. lia.
Qed.

Lemma serve_all_counter (trace : list (Env.t * Request)) (db : Database) :
  counter db <= counter (serve_all trace db).
Proof.
  revert db. induction trace as [|[env rq] trace IH]; intros db;
    cbn [serve_all]; [lia|].
  pose proof (serve_counter env rq db). specialize (IH (snd (serve env rq db))).
  lia.
Qed.

(** The ids in use are positive and not above the counter. *)
Lemma written_ids_bounded (env : Env.t) (db db' : Database) (tbl : Table) :
  notes db = Some tbl ->
  written env db tbl db' ->
  Forall (fun r => 1 <= Row.id r <= counter db) (stored db) ->
  Forall (fun r => 1 <= Row.id r <= counter db') (stored db').
Proof.
  intros Hdb Hw Hb.
  assert (Htbl : Forall (fun r => 1 <= Row.id r <= seq tbl) (rows tbl)).
  { unfold stored, counter in Hb. now rewrite Hdb in Hb. }
  destruct Hw as [|p Ht Hc|i t c|i]; [exact Hb|..];
    unfold counter, stored; cbn [with_rows notes seq rows].
  - apply Forall_after_others, Forall_app. split.
    + eapply Forall_impl; [|exact Htbl]. cbv beta. intros r Hr.
      pose proof (next_rowid_above tbl). lia.
    + constructor; [|constructor]. cbn.
      pose proof (next_rowid_above tbl). lia.
  - apply Forall_after_others, Forall_map.
    eapply Forall_impl; [|exact Htbl]. cbv beta. intros r Hr.
    now rewrite update_where_id.
  - now apply Forall_delete_rows.
Qed.

Lemma reachable_ids_bounded (db : Database) (clock : Z) :
  reachable db clock ->
  Forall (fun r => 1 <= Row.id r <= counter db) (stored db).
Proof.
  induction 1 as [clock | db clock env rq Hreach IH Hle].
  - constructor.
  - destruct (notes db) as [tbl|] eqn:Hdb.
    + apply (written_ids_bounded env db _ tbl Hdb); [|exact IH].
      apply serve_written, Hdb.
    + now rewrite serve_no_table.
Qed.

End Counter.

Section Outcomes.

Lemma fst_bind_ret {A B} (m : M A) (f : A -> B) (db : Database) :
  fst (bind m (fun a => ret (f a)) db)
  = match fst (m db) with
    | inl e => inl e
    | inr a => inr (f a)
    end.
Proof. unfold bind, ret. now destruct (m db) as [[e|a] db']. Qed.

Lemma of_dict_Some (d : Row.t) (n : NoteOut.t) :
  NoteOut.of_dict d = Some n <-> row_valid d /\ n = note_of_row d.
Proof.
  unfold NoteOut.of_dict, row_valid, note_of_row.
  destruct (NoteBase.title_ok (Row.title d)),
           (NoteBase.content_ok (Row.content d)); cbn [andb]; split;
    try (intros [= <-]; now repeat split);
    try (intros [[? ?] ->]; reflexivity);
    try discriminate;
    intros [[? ?] _]; discriminate.
Qed.

Lemma of_dict_None (d : Row.t) :
  NoteOut.of_dict d = None <-> ~ row_valid d.
Proof.
  split.
  - intros H Hv.
    pose proof (proj2 (of_dict_Some d (note_of_row d)) (conj Hv eq_refl)).
    congruence.
  - intros Hn. destruct (NoteOut.of_dict d) as [n|] eqn:E; [|reflexivity].
    apply of_dict_Some in E. tauto.
Qed.

(** A failure of the read-back is never a client error. *)
Lemma read_back_not_client (i : Z) (msg : string) (db : Database) (e : exn) :
  fst (read_back i msg db) = inl e -> client_error e = false.
Proof.
  unfold read_back. destruct (select_by_id i (stored db)) as [d|].
  - destruct (NoteOut.of_dict d); cbn [fst]; [discriminate|].
    now intros [= <-].
  - destruct (INTEGER_fits i); cbn [fst]; now intros [= <-].
Qed.

End Outcomes.

(** X1. An id outside the range of an SQLite INTEGER cannot be bound to a
    statement: on a table whose rowids are INTEGERs, getting it, updating
    it with a field supplied and deleting it all fail with
    [OverflowError], a server error (status 500) and not a 404, and the
    database is as it was. *)
Theorem id_out_of_range_is_server_error
        (env : Env.t) (db : Database) (tbl : Table) (i : Z)
        (u : NoteUpdate.t) :
  notes db = Some tbl ->
  Forall (fun r => INTEGER_fits (Row.id r) = true) (rows tbl) ->
  INTEGER_fits i = false ->
  get_note i db = (inl OverflowError, db)
  /\ (some_field u -> update_note env i u db = (inl OverflowError, db))
  /\ (Env.write_error env = None ->
      delete_note env i db = (inl OverflowError, db))
  /\ status_of OverflowError = 500
  /\ client_error OverflowError = false.
Proof.
  intros Hdb Hrows Hi.
  assert (Hnone : select_by_id i (rows tbl) = None).
  { destruct (select_by_id i (rows tbl)) as [r|] eqn:E; [|reflexivity].
    apply select_by_id_Some in E. destruct E as [Hin Hid].
    rewrite Forall_forall in Hrows. specialize (Hrows r Hin).
    congruence. }
  split; [|split; [|split; [|split; reflexivity]]].
  - now rewrite (get_note_run db tbl Hdb), Hnone, Hi.
  - intros Hu.
    now rewrite (update_note_missing env db tbl Hdb i u Hu Hnone), Hi.
  - intros Herr.
    now rewrite (delete_note_run env db tbl Hdb), Herr,
      (bind_id_absent _ _ Hnone), Hi.
Qed.

Lemma id_out_of_range_is_server_error_witness :
  get_note (- 2 ^ 63 - 1) sample_database
  = (inl OverflowError, sample_database)
  /\ (some_field (NoteUpdate.make (Some "Groceries") None) ->
      update_note (Env.quiet 20) (- 2 ^ 63 - 1)
                  (NoteUpdate.make (Some "Groceries") None) sample_database
      = (inl OverflowError, sample_database))
  /\ (@None sqlite3_Error = None ->
      delete_note (Env.quiet 20) (- 2 ^ 63 - 1) sample_database
      = (inl OverflowError, sample_database))
  /\ status_of OverflowError = 500
  /\ client_error OverflowError = false.
Proof.
  apply (id_out_of_range_is_server_error (Env.quiet 20) sample_database
           (mkTable (stored sample_database) 3) (- 2 ^ 63 - 1)
           (NoteUpdate.make (Some "Groceries") None)).
  - reflexivity.
  - repeat constructor.
  - reflexivity.
Defined.

(** X2. [get_note] and [list_notes] never write: whatever they answer,
    the database is as it was. *)
Theorem reads_never_write (db : Database) (i : Z) :
  snd (get_note i db) = db /\ snd (list_notes db) = db.
Proof. split; [apply snd_get_note | apply snd_list_notes]. Qed.

(** X3. A request that is answered with a client error (400, 404, 422)
    has written nothing: the database is as it was. *)
Theorem client_error_no_write
        (env : Env.t) (rq : Request) (db : Database) (e : exn) :
  fst (serve env rq db) = inl e ->
  client_error e = true ->
  snd (serve env rq db) = db.
Proof.
  destruct (notes db) as [tbl|] eqn:Hdb;
    [|intros _ _; now apply serve_no_table].
  destruct rq as [b| |i|i b|i]; unfold serve;
    rewrite ?snd_bind_ret, ?fst_bind_ret.
  - unfold post_notes. destruct (NoteCreate.parse b) as [p|]; [|reflexivity].
    rewrite (create_note_run env db tbl Hdb p).
    destruct (Env.write_error env) as [[m|m]|]; [reflexivity|reflexivity|].
    destruct (fst (read_back _ _ _)) as [e'|n] eqn:E; [|discriminate].
    intros [= <-] Hc. apply read_back_not_client in E. congruence.
  - intros _ _. apply snd_list_notes.
  - intros _ _. apply snd_get_note.
  - unfold put_note. destruct (NoteUpdate.parse b) as [u|]; [|reflexivity].
    destruct (NoteUpdate.title u) as [t|] eqn:Et;
      [|destruct (NoteUpdate.content u) as [c|] eqn:Ec].
    3: { unfold update_note. rewrite Et, Ec. reflexivity. }
    all: assert (Hsome : some_field u)
      by (unfold some_field; rewrite ?Et, ?Ec;
          first [left; discriminate | right; discriminate]).
    all: destruct (select_by_id i (rows tbl)) as [old|] eqn:Hold;
      [|rewrite (update_note_missing env db tbl Hdb i u Hsome Hold);
        reflexivity].
    all: rewrite (update_note_run env db tbl Hdb i u old Hsome Hold).
    all: destruct (Env.write_error env) as [[m|m]|];
      [reflexivity|reflexivity|].
    all: destruct (fst (read_back _ _ _)) as [e'|n] eqn:E; [|discriminate].
    all: intros [= <-] Hc; apply read_back_not_client in E; congruence.
  - rewrite (delete_note_run env db tbl Hdb).
    destruct (Env.write_error env) as [err|]; [reflexivity|].
    destruct (bind_id i (rows tbl)); [|reflexivity].
    destruct (select_by_id i (rows tbl)) as [r|] eqn:Hsel; [discriminate|].
    intros _ _. cbn [snd]. rewrite (delete_rows_absent _ _ Hsel).
    now apply with_rows_same.
Qed.

Lemma client_error_no_write_witness :
  snd (serve (Env.quiet 20) (DELETE_note 7) sample_database)
  = sample_database.
Proof.
  apply (client_error_no_write (Env.quiet 20) (DELETE_note 7) sample_database
           (HTTPException 404 "Note not found")).
  - reflexivity.
  - reflexivity.
Defined.

(** X4. When the engine raises an error on the writing statement, no
    request writes; [delete_note], which has no handler for it, lets the
    error through as it is, a constraint violation included. *)
Theorem engine_error_no_write
        (env : Env.t) (rq : Request) (db : Database) (err : sqlite3_Error) :
  Env.write_error env = Some err ->
  snd (serve env rq db) = db
  /\ forall i, delete_note env i db = (inl (Sqlite3 err), db).
Proof.
  intros Herr. split.
  - destruct (notes db) as [tbl|] eqn:Hdb; [|now apply serve_no_table].
    destruct rq as [b| |i|i b|i]; unfold serve; rewrite ?snd_bind_ret.
    + unfold post_notes. destruct (NoteCreate.parse b) as [p|];
        [|reflexivity].
      rewrite (create_note_run env db tbl Hdb p), Herr. now destruct err.
    + apply snd_list_notes.
    + apply snd_get_note.
    + unfold put_note. destruct (NoteUpdate.parse b) as [u|]; [|reflexivity].
      destruct (NoteUpdate.title u) as [t|] eqn:Et;
        [|destruct (NoteUpdate.content u) as [c|] eqn:Ec].
      3: { unfold update_note. rewrite Et, Ec. reflexivity. }
      all: assert (Hsome : some_field u)
        by (unfold some_field; rewrite ?Et, ?Ec;
            first [left; discriminate | right; discriminate]).
      all: destruct (select_by_id i (rows tbl)) as [old|] eqn:Hold;
        [|rewrite (update_note_missing env db tbl Hdb i u Hsome Hold);
          reflexivity].
      all: rewrite (update_note_run env db tbl Hdb i u old Hsome Hold), Herr.
      all: now destruct err.
    + now rewrite (delete_note_run env db tbl Hdb), Herr.
  - intros i. unfold delete_note, bind, execute_delete. now rewrite Herr.
Qed.

Lemma engine_error_no_write_witness :
  snd (serve (Env.make 20 (Some (OperationalError "disk I/O error")) [])
             (DELETE_note 1) sample_database) = sample_database
  /\ forall i,
      delete_note (Env.make 20 (Some (OperationalError "disk I/O error")) [])
                  i sample_database
      = (inl (Sqlite3 (OperationalError "disk I/O error")), sample_database).
Proof.
  apply (engine_error_no_write
           (Env.make 20 (Some (OperationalError "disk I/O error")) [])
           (DELETE_note 1) sample_database
           (OperationalError "disk I/O error")).
  reflexivity.
Defined.

Section Creating.

(** What [create_note] has done when it returns a note. *)
Lemma create_note_returned
      (env : Env.t) (db db' : Database) (tbl : Table)
      (p : NoteCreate.t) (n : NoteOut.t) :
  notes db = Some tbl ->
  create_note env p db = (inr n, db') ->
  n = note_of_row (inserted_row env p tbl)
  /\ db' = with_rows db
             (after_others env (rows tbl ++ [inserted_row env p tbl]))
             (next_rowid tbl).
Proof.
  intros Hdb. rewrite (create_note_run env db tbl Hdb p).
  destruct (Env.write_error env) as [[m|m]|]; [discriminate|discriminate|].
  unfold read_back.
  destruct (select_by_id _ _) as [d|] eqn:Hsel;
    [|destruct (INTEGER_fits (next_rowid tbl)); discriminate].
  destruct (NoteOut.of_dict d) as [n'|] eqn:Hd; [|discriminate].
  intros [= <- <-]. split; [|reflexivity].
  apply of_dict_Some in Hd. destruct Hd as [_ ->]. f_equal.
  apply select_by_id_Some in Hsel. destruct Hsel as [Hin Hid].
  cbn [stored with_rows notes rows] in Hin.
  apply In_concurrent_deletes in Hin. destruct Hin as [Hin _].
  apply in_app_or in Hin. destruct Hin as [Hin | [<- | []]]; [|reflexivity].
  pose proof (proj2 (proj2 (next_rowid_above tbl)) d Hin). lia.
Qed.

Lemma serve_all_schema_ready (trace : list (Env.t * Request))
      (db : Database) :
  schema_ready db -> schema_ready (serve_all trace db).
Proof.
  revert db. induction trace as [|[env rq] trace IH]; intros db Hready;
    cbn [serve_all]; [exact Hready|].
  now apply IH, serve_schema_ready.
Qed.

(** A row that is before nothing goes to the front of the listing. *)
Lemma order_by_newest (rs : list Row.t) (r : Row.t) :
  (forall x, In x rs -> order_before x r = false) ->
  order_by (rs ++ [r]) = r :: order_by rs.
Proof.
  induction rs as [|x rs IH]; intros Hr; [reflexivity|].
  cbn [app order_by fold_right].
  change (fold_right insert_ordered [] (rs ++ [r])) with (order_by (rs ++ [r])).
  rewrite IH by (intros y Hy; apply Hr; now right).
  cbn [insert_ordered]. now rewrite (Hr x (or_introl eq_refl)).
Qed.

End Creating.

(** X5. A note that [create_note] returns carries the payload's title and
    content and the time of the request in both timestamps; its id is
    above the counter and above every stored id, and becomes the counter;
    with no other connection writing, the stored rows are the old ones
    followed by the new one. *)
Theorem create_note_fresh
        (env : Env.t) (db db' : Database) (tbl : Table)
        (p : NoteCreate.t) (n : NoteOut.t) :
  notes db = Some tbl ->
  create_note env p db = (inr n, db') ->
  NoteOut.title n = NoteCreate.title p
  /\ NoteOut.content n = NoteCreate.content p
  /\ NoteOut.created_at n = Env.CURRENT_TIMESTAMP env
  /\ NoteOut.updated_at n = Env.CURRENT_TIMESTAMP env
  /\ counter db < NoteOut.id n
  /\ (forall r, In r (rows tbl) -> Row.id r < NoteOut.id n)
  /\ counter db' = NoteOut.id n
  /\ (Env.concurrent_deletes env = [] ->
      map note_of_row (stored db') = (map note_of_row (rows tbl) ++ [n])%list).
Proof.
  intros Hdb Hrun.
  destruct (create_note_returned env db db' tbl p n Hdb Hrun) as [-> ->].
  pose proof (next_rowid_above tbl) as (Hseq & _ & Hids).
  repeat split; try reflexivity.
  - unfold counter. rewrite Hdb. exact Hseq.
  - exact Hids.
  - intros Hquiet. cbn [stored with_rows notes rows].
    unfold after_others. rewrite Hquiet. cbn [fold_right].
    now rewrite map_app.
Qed.

Lemma create_note_fresh_witness :
  let n := NoteOut.make 4 "D" "d" 20 20 in
  NoteOut.title n = "D"
  /\ NoteOut.content n = "d"
  /\ NoteOut.created_at n = 20
  /\ NoteOut.updated_at n = 20
  /\ counter sample_database < NoteOut.id n
  /\ (forall r, In r (stored sample_database) -> Row.id r < NoteOut.id n)
  /\ counter (snd (create_note (Env.quiet 20) (NoteCreate.make "D" "d")
                               sample_database)) = NoteOut.id n
  /\ (@nil Z = [] ->
      map note_of_row
        (stored (snd (create_note (Env.quiet 20) (NoteCreate.make "D" "d")
                                  sample_database)))
      = (map note_of_row (stored sample_database) ++ [n])%list).
Proof.
  apply (create_note_fresh (Env.quiet 20) sample_database _
           (mkTable (stored sample_database) 3) (NoteCreate.make "D" "d")).
  - reflexivity.
  - reflexivity.
Defined.

(** X6. Ids are not used again: once the service has reached a state, no
    note created later, after any requests, gets the id of a note stored in
    that state, whether that note is still stored or has been deleted. *)
Theorem created_id_never_reused
        (db db' : Database) (clock : Z) (r : Row.t)
        (trace : list (Env.t * Request)) (env : Env.t) (b : Body.t)
        (n : NoteOut.t) :
  reachable db clock ->
  In r (stored db) ->
  post_notes env b (serve_all trace db) = (inr n, db') ->
  Row.id r < NoteOut.id n.
Proof.
  intros Hreach Hr Hpost.
  pose proof (reachable_ids_bounded db clock Hreach) as Hb.
  rewrite Forall_forall in Hb. specialize (Hb r Hr).
  pose proof (serve_all_counter trace db) as Hmono.
  pose proof (serve_all_schema_ready trace db
                (reachable_schema_ready db clock Hreach)) as [Htable _].
  destruct (notes (serve_all trace db)) as [tbl|] eqn:Hdb; [|congruence].
  unfold post_notes in Hpost.
  destruct (NoteCreate.parse b) as [p|]; [|discriminate].
  destruct (create_note_returned env _ db' tbl p n Hdb Hpost) as [-> _].
  pose proof (next_rowid_above tbl) as (Hseq & _).
  unfold counter in Hmono at 2. rewrite Hdb in Hmono.
  cbn. lia.
Qed.

Lemma created_id_never_reused_witness :
  Row.id (Row.make 1 "Shopping" "Milk" 10 10)
  < NoteOut.id (NoteOut.make 2 "Again" "Milk" 12 12).
Proof.
  apply (created_id_never_reused
           (snd (serve (Env.quiet 10)
                       (POST_notes (Body.make (Some "Shopping") (Some "Milk")))
                       (snd (init_db empty_database))))
           (mkDatabase
              (Some (mkTable [Row.make 2 "Again" "Milk" 12 12] 2)) true)
           10 (Row.make 1 "Shopping" "Milk" 10 10)
           [(Env.quiet 11, DELETE_note 1)] (Env.quiet 12)
           (Body.make (Some "Again") (Some "Milk"))).
  - apply (reachable_serve _ 10 (Env.quiet 10)); [|cbn; lia].
    apply reachable_init.
  - left. reflexivity.
  - reflexivity.
Defined.

(** X7. A note created at a time not before any stored [updated_at] is
    the first of the next listing, and the rest of that listing is the
    listing as it was. *)
Theorem create_listed_first
        (now : Z) (db : Database) (tbl : Table) (t c : string) :
  notes db = Some tbl ->
  (1 <= String.length t <= 200)%nat ->
  (1 <= String.length c)%nat ->
  Forall row_valid (rows tbl) ->
  Forall (fun r => Row.updated_at r <= now) (rows tbl) ->
  exists n db' ns,
    post_notes (Env.quiet now) (Body.make (Some t) (Some c)) db = (inr n, db')
    /\ list_notes db = (inr ns, db)
    /\ list_notes db' = (inr (n :: ns), db').
Proof.
  intros Hdb Ht Hc Hvalid Hclock.
  set (p := NoteCreate.make t c).
  set (r := inserted_row (Env.quiet now) p tbl).
  set (db' := with_rows db (rows tbl ++ [r]) (next_rowid tbl)).
  assert (Hr : row_valid r).
  { split; [now apply title_ok_iff | now apply content_ok_iff]. }
  assert (Hsel : select_by_id (next_rowid tbl) (stored db') = Some r).
  { apply (select_inserted tbl r). reflexivity. }
  assert (Hsorted : forall rs, Forall row_valid rs ->
            Forall row_valid (order_by rs)).
  { intros rs Hrs. eapply Permutation_Forall; [|exact Hrs].
    apply Permutation_sym, order_by_perm. }
  exists (note_of_row r), db', (map note_of_row (order_by (rows tbl))).
  split; [|split].
  - unfold post_notes. rewrite (parse_create_valid t c Ht Hc).
    rewrite (create_note_run _ db tbl Hdb).
    cbn [Env.quiet Env.write_error]. now apply read_back_valid.
  - unfold list_notes, select_all_ordered, bind. rewrite Hdb.
    now apply NoteOut_of_all_valid, Hsorted.
  - unfold list_notes, select_all_ordered, bind.
    cbn [db' with_rows notes rows].
    rewrite order_by_newest.
    + rewrite NoteOut_of_all_valid; [reflexivity|].
      constructor; [exact Hr | now apply Hsorted].
    + intros x Hx. rewrite Forall_forall in Hclock. specialize (Hclock x Hx).
      pose proof (proj2 (proj2 (next_rowid_above tbl)) x Hx) as Hid.
      unfold order_before. cbn [r inserted_row Row.updated_at Row.id
                                  Env.quiet Env.CURRENT_TIMESTAMP].
      apply orb_false_iff. split; [apply Z.ltb_ge; lia|].
      apply andb_false_iff. right. apply Z.leb_gt. lia.
Qed.

Lemma create_listed_first_witness :
  exists n db' ns,
    post_notes (Env.quiet 15) (Body.make (Some "D") (Some "d"))
               sample_database = (inr n, db')
    /\ list_notes sample_database = (inr ns, sample_database)
    /\ list_notes db' = (inr (n :: ns), db').
Proof.
  apply (create_listed_first 15 sample_database
           (mkTable (stored sample_database) 3) "D" "d").
  - reflexivity.
  - cbn. lia.
  - cbn. lia.
  - repeat constructor.
  - repeat constructor; cbn; lia.
Defined.

Section Changing.

Lemma unique_select (rs : list Row.t) (y : Row.t) :
  ids_unique rs -> In y rs -> select_by_id (Row.id y) rs = Some y.
Proof.
  unfold ids_unique, select_by_id.
  induction rs as [|x rs IH]; cbn [map find In]; intros Hnd Hin;
    [contradiction|].
  inversion Hnd as [|? ? Hnotin Hnd']; subst.
  destruct Hin as [-> | Hin]; [now rewrite Z.eqb_refl|].
  destruct (Row.id x =? Row.id y) eqn:E; [|now apply IH].
  apply Z.eqb_eq in E. exfalso. apply Hnotin. rewrite E. now apply in_map.
Qed.

Lemma select_by_id_delete_other (i j : Z) (rs : list Row.t) :
  j <> i -> select_by_id j (delete_rows i rs) = select_by_id j rs.
Proof.
  intros Hj. unfold select_by_id, delete_rows.
  induction rs as [|x rs IH]; [reflexivity|]. cbn [filter find].
  destruct (Row.id x =? i) eqn:Ei; cbn [negb find].
  - apply Z.eqb_eq in Ei.
    assert (Hne : (Row.id x =? j) = false) by (apply Z.eqb_neq; congruence).
    now rewrite Hne.
  - destruct (Row.id x =? j); [reflexivity | exact IH].
Qed.

(** With unique ids a delete takes exactly the row of that id away. *)
Lemma delete_rows_exactly (i : Z) (rs : list Row.t) (r : Row.t) :
  ids_unique rs ->
  select_by_id i rs = Some r ->
  Permutation rs (r :: delete_rows i rs).
Proof.
  unfold ids_unique.
  induction rs as [|x rs IH]; intros Hnd Hsel; [discriminate|].
  inversion Hnd as [|? ? Hnotin Hnd']; subst.
  unfold select_by_id in Hsel. cbn [find] in Hsel.
  unfold delete_rows. cbn [filter].
  destruct (Row.id x =? i) eqn:E; cbn [negb].
  - injection Hsel as <-. apply Z.eqb_eq in E.
    fold (delete_rows i rs). rewrite delete_rows_absent; [reflexivity|].
    apply select_by_id_absent. intros y Hy Hid. apply Hnotin.
    rewrite E, <- Hid. now apply in_map.
  - fold (delete_rows i rs).
    eapply perm_trans; [apply perm_skip, (IH Hnd' Hsel) | apply perm_swap].
Qed.

(** The first of a sorted list is the row nothing else stands before. *)
Lemma sorted_head (l : list Row.t) (r : Row.t) :
  StronglySorted before l ->
  In r l ->
  (forall x, In x l -> before x r -> x = r) ->
  exists rest, l = r :: rest.
Proof.
  intros Hs Hin Hfirst. destruct l as [|h t]; [contradiction|].
  inversion Hs as [|? ? _ Hall]; subst.
  destruct Hin as [-> | Hin]; [now exists t|].
  rewrite Forall_forall in Hall.
  rewrite (Hfirst h (or_introl eq_refl) (Hall r Hin)). now exists t.
Qed.

Variables (now : Z) (db : Database) (tbl : Table) (i : Z) (old : Row.t)
          (b : Body.t).
Hypothesis Hdb : notes db = Some tbl.
Hypothesis Hold : select_by_id i (rows tbl) = Some old.
Hypothesis Hparse : NoteUpdate.parse b <> None.
Hypothesis Hsome : Body.title b <> None \/ Body.content b <> None.

Local Abbreviation u := (NoteUpdate.make (Body.title b) (Body.content b)).
Local Abbreviation upd :=
  (update_where i now (notes_set_updated_at db)
                (new_title u old) (new_content u old)).

Lemma parse_update_Some : NoteUpdate.parse b = Some u.
Proof.
  unfold NoteUpdate.parse in *.
  destruct (NoteUpdate.opt_ok NoteBase.title_ok (Body.title b)
            && NoteUpdate.opt_ok NoteBase.content_ok (Body.content b));
    [reflexivity | congruence].
Qed.

Lemma put_note_run :
  put_note (Env.quiet now) i b db
  = read_back i "Failed to load updated note"
              (with_rows db (map upd (rows tbl)) (seq tbl)).
Proof.
  unfold put_note. rewrite parse_update_Some.
  now rewrite (update_note_run _ db tbl Hdb i u old Hsome Hold).
Qed.

Lemma updated_row_valid :
  row_valid old -> row_valid (upd old).
Proof.
  intros [Ht Hc].
  pose proof (parse_update_fields
                (fun s => NoteBase.title_ok s = true)
                (fun s => NoteBase.content_ok s = true)
                (fun s H => H) (fun s H => H) b u old
                parse_update_Some (conj Ht Hc)) as Hnew.
  unfold update_where. destruct (Row.id old =? i); [exact Hnew|].
  now split.
Qed.

Lemma updated_rows_valid :
  Forall row_valid (rows tbl) -> Forall row_valid (map upd (rows tbl)).
Proof.
  intros Hvalid. apply Forall_map. rewrite Forall_forall in *. intros r Hr.
  pose proof (select_by_id_Some _ _ _ Hold) as [Hin _].
  pose proof (parse_update_fields
                (fun s => NoteBase.title_ok s = true)
                (fun s => NoteBase.content_ok s = true)
                (fun s H => H) (fun s H => H) b u old
                parse_update_Some (Hvalid old Hin)) as Hnew.
  unfold update_where. destruct (Row.id r =? i);
    [exact Hnew | exact (Hvalid r Hr)].
Qed.

End Changing.

(** X8. A partial update of an existing valid note, with a body that
    passes validation and supplies at least one field: the note returned
    has the supplied fields and keeps the omitted ones, its id and its
    [created_at]; its [updated_at] is the time of the request when the
    trigger exists and is untouched when it does not; a get of the id
    returns the same note; no note appears, disappears or changes
    otherwise. *)
Theorem update_note_fields
        (now : Z) (db : Database) (tbl : Table) (i : Z) (old : Row.t)
        (b : Body.t) :
  notes db = Some tbl ->
  select_by_id i (rows tbl) = Some old ->
  row_valid old ->
  NoteUpdate.parse b <> None ->
  Body.title b <> None \/ Body.content b <> None ->
  exists n db',
    put_note (Env.quiet now) i b db = (inr n, db')
    /\ NoteOut.id n = i
    /\ NoteOut.title n = match Body.title b with
                         | Some s => s
                         | None => Row.title old
                         end
    /\ NoteOut.content n = match Body.content b with
                           | Some s => s
                           | None => Row.content old
                           end
    /\ NoteOut.created_at n = Row.created_at old
    /\ NoteOut.updated_at n = (if notes_set_updated_at db then now
                               else Row.updated_at old)
    /\ get_note i db' = (inr n, db')
    /\ map Row.id (stored db') = map Row.id (rows tbl)
    /\ forall j, j <> i ->
         select_by_id j (stored db') = select_by_id j (rows tbl).
Proof.
  intros Hdb Hold Hvalid Hparse Hsome.
  set (u := NoteUpdate.make (Body.title b) (Body.content b)).
  set (r := update_row now (notes_set_updated_at db)
                       (new_title u old) (new_content u old) old).
  set (rs := map (update_where i now (notes_set_updated_at db)
                               (new_title u old) (new_content u old))
                 (rows tbl)).
  set (db' := with_rows db rs (seq tbl)).
  pose proof (select_by_id_Some _ _ _ Hold) as [_ Hid].
  assert (Hsel : select_by_id i (stored db') = Some r).
  { apply select_updated, Hold. }
  assert (Hr : row_valid r).
  { pose proof (updated_row_valid now db i old b Hparse Hvalid) as H.
    unfold update_where in H. now rewrite Hid, Z.eqb_refl in H. }
  exists (note_of_row r), db'.
  split; [|repeat split].
  - rewrite (put_note_run now db tbl i old b Hdb Hold Hparse Hsome).
    now apply read_back_valid.
  - exact Hid.
  - rewrite (get_note_run db' (mkTable rs (seq tbl))) by reflexivity.
    cbn [rows]. change rs with (stored db'). rewrite Hsel.
    now apply NoteOut_of_valid.
  - apply update_where_ids.
  - intros j Hj. apply select_not_updated, Hj.
Qed.

Lemma update_note_fields_witness :
  exists n db',
    put_note (Env.quiet 20) 2 (Body.make None (Some "bread")) sample_database
    = (inr n, db')
    /\ NoteOut.id n = 2
    /\ NoteOut.title n = "B"
    /\ NoteOut.content n = "bread"
    /\ NoteOut.created_at n = 10
    /\ NoteOut.updated_at n = 20
    /\ get_note 2 db' = (inr n, db')
    /\ map Row.id (stored db') = map Row.id (stored sample_database)
    /\ forall j, j <> 2 ->
         select_by_id j (stored db')
         = select_by_id j (stored sample_database).
Proof.
  apply (update_note_fields 20 sample_database
           (mkTable (stored sample_database) 3) 2
           (Row.make 2 "B" "b" 10 10) (Body.make None (Some "bread"))).
  - reflexivity.
  - reflexivity.
  - split; reflexivity.
  - discriminate.
  - right. discriminate.
Defined.

(** X9. With the trigger in place and unique ids, a note updated at a
    time after the [updated_at] of every other note is the first of the
    next listing. *)
Theorem update_listed_first
        (now : Z) (db : Database) (tbl : Table) (i : Z) (old : Row.t)
        (b : Body.t) :
  notes db = Some tbl ->
  notes_set_updated_at db = true ->
  select_by_id i (rows tbl) = Some old ->
  ids_unique (rows tbl) ->
  Forall row_valid (rows tbl) ->
  (forall r, In r (rows tbl) -> Row.id r <> i -> Row.updated_at r < now) ->
  NoteUpdate.parse b <> None ->
  Body.title b <> None \/ Body.content b <> None ->
  exists n db' rest,
    put_note (Env.quiet now) i b db = (inr n, db')
    /\ list_notes db' = (inr (n :: rest), db').
Proof.
  intros Hdb Htrigger Hold Hunique Hvalid Hnewer Hparse Hsome.
  set (u := NoteUpdate.make (Body.title b) (Body.content b)).
  set (f := update_where i now (notes_set_updated_at db)
                         (new_title u old) (new_content u old)).
  set (db' := with_rows db (map f (rows tbl)) (seq tbl)).
  pose proof (select_by_id_Some _ _ _ Hold) as [Hin Hid].
  pose proof (updated_rows_valid now db tbl i old b Hold Hparse Hvalid)
    as Hvalid'.
  fold u in Hvalid'. fold f in Hvalid'.
  assert (Hf : forall y, In y (rows tbl) -> Row.id y = i -> y = old).
  { intros y Hy Hyi. pose proof (unique_select _ y Hunique Hy) as Hs.
    rewrite Hyi, Hold in Hs. congruence. }
  assert (Hnow : Row.updated_at (f old) = now).
  { unfold f, update_where, update_row. rewrite Hid, Z.eqb_refl, Htrigger.
    reflexivity. }
  destruct (sorted_head (order_by (map f (rows tbl))) (f old))
    as [rest Hrest].
  { apply order_by_sorted. }
  { apply (Permutation_in _ (Permutation_sym (order_by_perm _))).
    now apply in_map. }
  { intros x Hx Hbefore.
    apply (Permutation_in _ (order_by_perm _)) in Hx.
    apply in_map_iff in Hx. destruct Hx as [y [<- Hy]].
    destruct (Z.eq_dec (Row.id y) i) as [Hyi | Hyi].
    - now rewrite (Hf y Hy Hyi).
    - exfalso. specialize (Hnewer y Hy Hyi).
      assert (Hfy : f y = y).
      { unfold f, update_where.
        now rewrite (proj2 (Z.eqb_neq _ _) Hyi). }
      rewrite Hfy in Hbefore. unfold before in Hbefore. lia. }
  assert (Hall : Forall row_valid (order_by (map f (rows tbl)))).
  { eapply Permutation_Forall; [|exact Hvalid'].
    apply Permutation_sym, order_by_perm. }
  exists (note_of_row (f old)), db', (map note_of_row rest).
  split.
  - rewrite (put_note_run now db tbl i old b Hdb Hold Hparse Hsome).
    apply read_back_valid.
    + cbn [db' stored with_rows notes rows].
      rewrite (select_by_id_map f i (rows tbl));
        [now rewrite Hold | intros r; apply update_where_id].
    + rewrite Forall_forall in Hvalid'. apply Hvalid'. now apply in_map.
  - unfold list_notes, select_all_ordered, bind.
    cbn [db' with_rows notes rows].
    rewrite (NoteOut_of_all_valid _ _ Hall), Hrest. reflexivity.
Qed.

Lemma update_listed_first_witness :
  exists n db' rest,
    put_note (Env.quiet 20) 2 (Body.make None (Some "bread")) sample_database
    = (inr n, db')
    /\ list_notes db' = (inr (n :: rest), db').
Proof.
  apply (update_listed_first 20 sample_database
           (mkTable (stored sample_database) 3) 2
           (Row.make 2 "B" "b" 10 10) (Body.make None (Some "bread"))).
  - reflexivity.
  - reflexivity.
  - reflexivity.
  - repeat constructor; cbn; intuition discriminate.
  - repeat constructor.
  - intros r [<- | [<- | [<- | []]]] Hne; cbn in *; lia.
  - discriminate.
  - right. discriminate.
Defined.

(** X10. With unique ids and no engine error, deleting a stored id
    succeeds and takes exactly that row away: every other id reads as
    before, the counter stays, and a second delete of the id, which is an
    INTEGER as the rowids of a table are, is answered 404. *)
Theorem delete_note_existing
        (env : Env.t) (db : Database) (tbl : Table) (i : Z) (r : Row.t) :
  notes db = Some tbl ->
  Env.write_error env = None ->
  select_by_id i (rows tbl) = Some r ->
  ids_unique (rows tbl) ->
  exists db',
    delete_note env i db = (inr tt, db')
    /\ Permutation (rows tbl) (r :: stored db')
    /\ (forall j, j <> i ->
          select_by_id j (stored db') = select_by_id j (rows tbl))
    /\ counter db' = counter db
    /\ (INTEGER_fits i = true ->
        delete_note env i db'
        = (inl (HTTPException 404 "Note not found"), db')).
Proof.
  intros Hdb Herr Hsel Hunique.
  exists (with_rows db (delete_rows i (rows tbl)) (seq tbl)).
  split; [|split; [|split; [|split]]].
  - now rewrite (delete_note_run env db tbl Hdb), Herr,
      (bind_id_stored _ _ _ Hsel), Hsel.
  - now apply delete_rows_exactly.
  - intros j Hj. now apply select_by_id_delete_other.
  - unfold counter. now rewrite Hdb.
  - intros Hfits.
    rewrite (delete_note_run env _ (mkTable (delete_rows i (rows tbl))
                                            (seq tbl))) by reflexivity.
    rewrite Herr. cbn [rows seq].
    rewrite (bind_id_absent _ _ (select_by_id_deleted i (rows tbl))), Hfits.
    rewrite select_by_id_deleted.
    rewrite (delete_rows_absent i (delete_rows i (rows tbl)))
      by apply select_by_id_deleted.
    reflexivity.
Qed.

Lemma delete_note_existing_witness :
  exists db',
    delete_note (Env.quiet 20) 2 sample_database = (inr tt, db')
    /\ Permutation (stored sample_database)
                   (Row.make 2 "B" "b" 10 10 :: stored db')
    /\ (forall j, j <> 2 ->
          select_by_id j (stored db')
          = select_by_id j (stored sample_database))
    /\ counter db' = counter sample_database
    /\ (INTEGER_fits 2 = true ->
        delete_note (Env.quiet 20) 2 db'
        = (inl (HTTPException 404 "Note not found"), db')).
Proof.
  apply (delete_note_existing (Env.quiet 20) sample_database
           (mkTable (stored sample_database) 3) 2).
  - reflexivity.
  - reflexivity.
  - reflexivity.
  - repeat constructor; cbn; intuition discriminate.
Defined.

(** X11. The update is committed before the answer is built: when the
    stored title of a note does not fit the [NoteOut] constraints, an
    update of its content alone is answered with a server error, and the
    new content is stored all the same. *)
Theorem update_committed_before_answer
        (now : Z) (db : Database) (tbl : Table) (i : Z) (old : Row.t)
        (c : string) :
  notes db = Some tbl ->
  select_by_id i (rows tbl) = Some old ->
  NoteBase.title_ok (Row.title old) = false ->
  (1 <= String.length c)%nat ->
  exists db',
    put_note (Env.quiet now) i (Body.make None (Some c)) db
    = (inl ValidationError, db')
    /\ server_error ValidationError = true
    /\ option_map Row.content (select_by_id i (stored db')) = Some c.
Proof.
  intros Hdb Hold Htitle Hc.
  assert (Hparse : NoteUpdate.parse (Body.make None (Some c)) <> None).
  { unfold NoteUpdate.parse. cbn [Body.title Body.content NoteUpdate.opt_ok].
    apply content_ok_iff in Hc. rewrite Hc. discriminate. }
  eexists. split; [|split; [reflexivity|]].
  - rewrite (put_note_run now db tbl i old _ Hdb Hold Hparse)
      by (right; discriminate).
    unfold read_back. cbn [stored with_rows notes rows].
    rewrite (select_updated _ _ _ _ _ _ _ Hold).
    unfold NoteOut.of_dict, update_row, new_title.
    cbn [Row.title NoteUpdate.title Body.title]. rewrite Htitle.
    reflexivity.
  - cbn [stored with_rows notes rows].
    now rewrite (select_updated _ _ _ _ _ _ _ Hold).
Qed.

Lemma update_committed_before_answer_witness :
  exists db',
    put_note (Env.quiet 20) 1 (Body.make None (Some "Milk"))
             (mkDatabase (Some (mkTable [Row.make 1 "" "x" 10 10] 1)) true)
    = (inl ValidationError, db')
    /\ server_error ValidationError = true
    /\ option_map Row.content (select_by_id 1 (stored db')) = Some "Milk".
Proof.
  apply (update_committed_before_answer 20
           (mkDatabase (Some (mkTable [Row.make 1 "" "x" 10 10] 1)) true)
           (mkTable [Row.make 1 "" "x" 10 10] 1) 1
           (Row.make 1 "" "x" 10 10) "Milk").
  - reflexivity.
  - reflexivity.
  - reflexivity.
  - cbn. lia.
Defined.

(** X12. With unique ids and rows that fit the constraints, the listing
    and [get_note] agree: a note is in the listing exactly when getting
    its id returns it. *)
Theorem list_get_agree (db : Database) (tbl : Table) :
  notes db = Some tbl ->
  ids_unique (rows tbl) ->
  Forall row_valid (rows tbl) ->
  exists ns,
    list_notes db = (inr ns, db)
    /\ forall n, In n ns <-> get_note (NoteOut.id n) db = (inr n, db).
Proof.
  intros Hdb Hunique Hvalid.
  exists (map note_of_row (order_by (rows tbl))). split.
  - unfold list_notes, select_all_ordered, bind. rewrite Hdb.
    apply NoteOut_of_all_valid.
    eapply Permutation_Forall; [|exact Hvalid].
    apply Permutation_sym, order_by_perm.
  - intros n. rewrite (get_note_run db tbl Hdb). split.
    + intros Hn. apply in_map_iff in Hn. destruct Hn as [r [<- Hr]].
      apply (Permutation_in _ (order_by_perm _)) in Hr.
      change (NoteOut.id (note_of_row r)) with (Row.id r).
      rewrite (unique_select _ r Hunique Hr).
      apply NoteOut_of_valid. rewrite Forall_forall in Hvalid.
      now apply Hvalid.
    + destruct (select_by_id (NoteOut.id n) (rows tbl)) as [r|] eqn:Hsel;
        [|discriminate].
      unfold NoteOut_of. destruct (NoteOut.of_dict r) as [n'|] eqn:Hr;
        [|discriminate].
      intros [= <-]. apply of_dict_Some in Hr. destruct Hr as [_ ->].
      apply in_map.
      apply (Permutation_in _ (Permutation_sym (order_by_perm _))).
      now apply select_by_id_Some in Hsel.
Qed.

Lemma list_get_agree_witness :
  exists ns,
    list_notes sample_database = (inr ns, sample_database)
    /\ forall n,
        In n ns <->
        get_note (NoteOut.id n) sample_database = (inr n, sample_database).
Proof.
  apply (list_get_agree sample_database (mkTable (stored sample_database) 3)).
  - reflexivity.
  - repeat constructor; cbn; intuition discriminate.
  - repeat constructor.
Defined.

Section Listing.

(** Two sorted lists of the same rows are the same list, when no two
    different rows stand before each other. *)
Lemma sorted_perm_eq (l1 l2 : list Row.t) :
  StronglySorted before l1 ->
  StronglySorted before l2 ->
  Permutation l1 l2 ->
  (forall a b, In a l1 -> In b l1 -> before a b -> before b a -> a = b) ->
  l1 = l2.
Proof.
  revert l2. induction l1 as [|a t1 IH]; intros l2 Hs1 Hs2 Hperm Hanti.
  - now apply Permutation_nil in Hperm.
  - destruct l2 as [|b t2].
    + apply Permutation_sym, Permutation_nil in Hperm. discriminate.
    + inversion Hs1 as [|? ? Hs1' Hall1]; subst.
      inversion Hs2 as [|? ? Hs2' Hall2]; subst.
      rewrite Forall_forall in Hall1, Hall2.
      assert (Hab : a = b).
      { assert (Ha : In a (b :: t2))
          by (apply (Permutation_in _ Hperm); now left).
        assert (Hb : In b (a :: t1))
          by (apply (Permutation_in _ (Permutation_sym Hperm)); now left).
        destruct Ha as [-> | Ha]; [reflexivity|].
        destruct Hb as [-> | Hb]; [reflexivity|].
        apply Hanti; [now left | now right | now apply Hall1
                     | now apply Hall2]. }
      subst b. f_equal.
      apply IH; [exact Hs1' | exact Hs2' | |].
      * now apply Permutation_cons_inv in Hperm.
      * intros x y Hx Hy. apply Hanti; now right.
Qed.

Lemma before_antisym_unique (rs : list Row.t) (a b : Row.t) :
  ids_unique rs -> In a rs -> In b rs -> before a b -> before b a -> a = b.
Proof.
  intros Hunique Ha Hb Hab Hba.
  assert (Hid : Row.id a = Row.id b) by (unfold before in *; lia).
  pose proof (unique_select rs a Hunique Ha) as Hsa.
  pose proof (unique_select rs b Hunique Hb) as Hsb.
  rewrite Hid in Hsa. congruence.
Qed.

Lemma order_by_unique_order (rs rs' : list Row.t) :
  ids_unique rs -> Permutation rs rs' -> order_by rs = order_by rs'.
Proof.
  intros Hunique Hperm.
  apply sorted_perm_eq; try apply order_by_sorted.
  - eapply perm_trans; [apply order_by_perm|].
    eapply perm_trans; [exact Hperm | apply Permutation_sym, order_by_perm].
  - intros a b Ha Hb.
    apply (before_antisym_unique rs); [exact Hunique | |];
      now apply (Permutation_in _ (order_by_perm _)).
Qed.

Lemma NoteOut_of_all_fst (ds : list Row.t) (db db' : Database) :
  fst (NoteOut_of_all ds db) = fst (NoteOut_of_all ds db').
Proof.
  induction ds as [|d ds IH]; [reflexivity|].
  cbn [NoteOut_of_all]. unfold bind at 1 3. unfold NoteOut_of.
  destruct (NoteOut.of_dict d) as [n|]; [|reflexivity].
  unfold ret at 1 3. now rewrite !fst_bind_ret, IH.
Qed.

Lemma NoteOut_of_all_invalid (ds : list Row.t) (r : Row.t) (db : Database) :
  In r ds -> ~ row_valid r ->
  NoteOut_of_all ds db = (inl ValidationError, db).
Proof.
  intros Hin Hbad. induction ds as [|d ds IH]; [contradiction|].
  cbn [NoteOut_of_all]. unfold bind at 1. unfold NoteOut_of.
  destruct (NoteOut.of_dict d) as [n|] eqn:Hd; [|reflexivity].
  destruct Hin as [-> | Hin].
  - apply of_dict_Some in Hd. tauto.
  - unfold ret at 1. unfold bind. now rewrite (IH Hin).
Qed.

End Listing.

(** X13. With unique ids the listing does not depend on the order in
    which the table holds its rows: [ORDER BY datetime(updated_at) DESC,
    id DESC] leaves no two rows unordered. *)
Theorem listing_independent_of_row_order
        (db1 db2 : Database) (t1 t2 : Table) :
  notes db1 = Some t1 ->
  notes db2 = Some t2 ->
  ids_unique (rows t1) ->
  Permutation (rows t1) (rows t2) ->
  fst (list_notes db1) = fst (list_notes db2).
Proof.
  intros H1 H2 Hunique Hperm.
  unfold list_notes, select_all_ordered, bind. rewrite H1, H2.
  rewrite (order_by_unique_order _ _ Hunique Hperm).
  destruct (NoteOut_of_all (order_by (rows t2)) db1) as [r1 d1] eqn:E1.
  destruct (NoteOut_of_all (order_by (rows t2)) db2) as [r2 d2] eqn:E2.
  pose proof (NoteOut_of_all_fst (order_by (rows t2)) db1 db2) as Hfst.
  rewrite E1, E2 in Hfst. exact Hfst.
Qed.

Lemma listing_independent_of_row_order_witness :
  fst (list_notes sample_database)
  = fst (list_notes
           (mkDatabase
              (Some (mkTable [Row.make 3 "C" "c" 12 12;
                              Row.make 1 "A" "a" 10 15;
                              Row.make 2 "B" "b" 10 10] 3))
              true)).
Proof.
  apply (listing_independent_of_row_order sample_database _
           (mkTable (stored sample_database) 3)
           (mkTable [Row.make 3 "C" "c" 12 12;
                     Row.make 1 "A" "a" 10 15;
                     Row.make 2 "B" "b" 10 10] 3)).
  - reflexivity.
  - reflexivity.
  - repeat constructor; cbn; intuition discriminate.
  - cbn. apply Permutation_sym, (Permutation_cons_app [_; _] []).
    apply Permutation_refl.
Defined.

(** X14. One stored row that does not fit the [NoteOut] constraints makes
    the whole listing fail with a server error, and a get of its id as
    well; nothing is written. *)
Theorem invalid_row_fails_listing (db : Database) (tbl : Table) (r : Row.t) :
  notes db = Some tbl ->
  ids_unique (rows tbl) ->
  In r (rows tbl) ->
  ~ row_valid r ->
  list_notes db = (inl ValidationError, db)
  /\ get_note (Row.id r) db = (inl ValidationError, db)
  /\ status_of ValidationError = 500.
Proof.
  intros Hdb Hunique Hin Hbad. split; [|split; [|reflexivity]].
  - unfold list_notes, select_all_ordered, bind. rewrite Hdb.
    rewrite (NoteOut_of_all_invalid _ r); [reflexivity | | exact Hbad].
    now apply (Permutation_in _ (Permutation_sym (order_by_perm _))).
  - rewrite (get_note_run db tbl Hdb), (unique_select _ r Hunique Hin).
    unfold NoteOut_of. now rewrite (proj2 (of_dict_None r) Hbad).
Qed.

Lemma invalid_row_fails_listing_witness :
  let db := mkDatabase
              (Some (mkTable [Row.make 1 "A" "a" 10 10;
                              Row.make 2 "" "b" 11 11] 2)) true in
  list_notes db = (inl ValidationError, db)
  /\ get_note 2 db = (inl ValidationError, db)
  /\ status_of ValidationError = 500.
Proof.
  apply (invalid_row_fails_listing _
           (mkTable [Row.make 1 "A" "a" 10 10; Row.make 2 "" "b" 11 11] 2)
           (Row.make 2 "" "b" 11 11)).
  - reflexivity.
  - repeat constructor; cbn; intuition discriminate.
  - right. left. reflexivity.
  - intros [H _]. discriminate H.
Defined.

Section Answers.

Lemma returns_valid_raise (e : exn) : returns_valid (raise e).
Proof. intros db n db'. discriminate. Qed.

Lemma returns_valid_NoteOut_of (d : Row.t) : returns_valid (NoteOut_of d).
Proof.
  intros db n db'. unfold NoteOut_of.
  destruct (NoteOut.of_dict d) as [n'|] eqn:E; [|discriminate].
  intros [= <- _]. apply of_dict_Some in E. destruct E as [Hv ->].
  exact Hv.
Qed.

Lemma returns_valid_bind {A} (m : M A) (k : A -> M NoteOut.t) :
  (forall a, returns_valid (k a)) -> returns_valid (bind m k).
Proof.
  intros Hk db n db'. unfold bind.
  destruct (m db) as [[e|a] db1]; [discriminate|]. apply Hk.
Qed.

Lemma returns_valid_try (m : M NoteOut.t) (h : string -> M NoteOut.t) :
  returns_valid m ->
  (forall s, returns_valid (h s)) ->
  returns_valid (try_except_IntegrityError m h).
Proof.
  intros Hm Hh db n db'. unfold try_except_IntegrityError.
  destruct (m db) as [[e|a] db1] eqn:E.
  - destruct e as [sc d| | | |[msg|msg]]; try discriminate. apply Hh.
  - intros [= <- <-]. now apply (Hm db a db1).
Qed.

Lemma returns_valid_read (e : exn) (i : Z) :
  returns_valid
    (fetched <- fetch_one_note i ;;
     match fetched with
     | None => raise e
     | Some d => NoteOut_of d
     end).
Proof.
  apply returns_valid_bind. intros [d|];
    [apply returns_valid_NoteOut_of | apply returns_valid_raise].
Qed.

Lemma NoteOut_of_all_returned (ds : list Row.t) (db db' : Database)
      (ns : list NoteOut.t) :
  NoteOut_of_all ds db = (inr ns, db') -> Forall note_valid ns.
Proof.
  revert ns db'. induction ds as [|d ds IH]; intros ns db'.
  - intros [= <- _]. constructor.
  - cbn [NoteOut_of_all]. unfold bind at 1.
    destruct (NoteOut_of d db) as [[e|n] db1] eqn:Hd; [discriminate|].
    pose proof (returns_valid_NoteOut_of d db n db1 Hd) as Hn.
    pose proof (snd_NoteOut_of d db) as Hs. rewrite Hd in Hs. cbn in Hs.
    subst db1. unfold bind.
    destruct (NoteOut_of_all ds db) as [[e|ns'] db2] eqn:Hds; [discriminate|].
    intros [= <- _]. constructor; [exact Hn | exact (IH ns' db2 eq_refl)].
Qed.

End Answers.

(** X17. Whatever the database holds, a note that a request answers with
    fits the field constraints: a title from 1 to 200 characters and a
    content that is not empty. *)
Theorem answers_fit_constraints
        (env : Env.t) (rq : Request) (db : Database) :
  match fst (serve env rq db) with
  | inr (One n) => note_valid n
  | inr (Many ns) => Forall note_valid ns
  | _ => True
  end.
Proof.
  assert (Hcreate : forall p, returns_valid (create_note env p)).
  { intros p. apply returns_valid_try; [|intros s; apply returns_valid_raise].
    apply returns_valid_bind. intros i.
    apply returns_valid_bind. intros _.
    apply returns_valid_bind. intros _.
    apply returns_valid_read. }
  assert (Hupdate : forall i u, returns_valid (update_note env i u)).
  { intros i u. unfold update_note.
    assert (Hbody : returns_valid
      (try_except_IntegrityError
        (existing <- fetch_one_note i ;;
         match existing with
         | None => raise (HTTPException 404 "Note not found")
         | Some existing =>
             execute_update env (new_title u existing)
                            (new_content u existing) i ;;;
             commit ;;;
             other_connections env ;;;
             updated <- fetch_one_note i ;;
             match updated with
             | None => raise (HTTPException 500 "Failed to load updated note")
             | Some d => NoteOut_of d
             end
         end)
        (fun e => raise (HTTPException 400 ("Invalid note data: " ++ e))))).
    { apply returns_valid_try; [|intros s; apply returns_valid_raise].
      apply returns_valid_bind. intros [old|]; [|apply returns_valid_raise].
      apply returns_valid_bind. intros _.
      apply returns_valid_bind. intros _.
      apply returns_valid_bind. intros _.
      apply returns_valid_read. }
    destruct (NoteUpdate.title u), (NoteUpdate.content u);
      try exact Hbody. apply returns_valid_raise. }
  assert (Hget : forall i, returns_valid (get_note i)).
  { intros i. apply returns_valid_read. }
  destruct rq as [b| |i|i b|i]; unfold serve; rewrite fst_bind_ret.
  - unfold post_notes. destruct (NoteCreate.parse b) as [p|]; [|exact I].
    destruct (create_note env p db) as [[e|n] db'] eqn:E; [exact I|].
    exact (Hcreate p db n db' E).
  - destruct (list_notes db) as [[e|ns] db'] eqn:E; [exact I|].
    unfold list_notes, bind in E.
    destruct (select_all_ordered db) as [[e|rs] db1]; [discriminate|].
    exact (NoteOut_of_all_returned rs db1 db' ns E).
  - destruct (get_note i db) as [[e|n] db'] eqn:E; [exact I|].
    exact (Hget i db n db' E).
  - unfold put_note. destruct (NoteUpdate.parse b) as [u|]; [|exact I].
    destruct (update_note env i u db) as [[e|n] db'] eqn:E; [exact I|].
    exact (Hupdate i u db n db' E).
  - now destruct (fst (delete_note env i db)).
Qed.

(* ===================================================================== *)
(** ** Where the database file is *)
(* ===================================================================== *)

Section Paths.

Lemma parents_snoc (l : list string) (x : string) :
  parents (l ++ [x]) 0 = Some l.
Proof.
  unfold parents. rewrite length_app. cbn [List.length].
  replace (0 <? List.length l + 1)%nat with true
    by (symmetry; apply Nat.ltb_lt; lia).
  replace (List.length l + 1 - 1)%nat with (List.length l + 0)%nat by lia.
  now rewrite firstn_app_2, app_nil_r.
Qed.

Lemma parents_3 (root : list string) (pkg d1 d2 f : string) :
  parents (root ++ [pkg; d1; d2; f]) 3 = Some root.
Proof.
  unfold parents. rewrite length_app. cbn [List.length].
  replace (3 <? List.length root + 4)%nat with true
    by (symmetry; apply Nat.ltb_lt; lia).
  replace (List.length root + 4 - 4)%nat with (List.length root + 0)%nat
    by lia.
  now rewrite firstn_app_2, app_nil_r.
Qed.

Lemma default_db_path_parent (file default : list string) :
  _default_db_path file = Some default ->
  exists root, default = (root ++ ["database"; "myapp.db"])%list
               /\ parents default 0 = Some (root ++ ["database"])%list.
Proof.
  unfold _default_db_path. destruct (parents file 3) as [root|];
    [|discriminate].
  intros [= <-]. exists root. split; [reflexivity|].
  change (root ++ ["database"; "myapp.db"])%list
    with (root ++ ["database"] ++ ["myapp.db"])%list.
  rewrite app_assoc. apply parents_snoc.
Qed.

End Paths.

(** X18. The default database file is [database/myapp.db] in the
    directory three levels above the directory of [db.py]: for
    [R/notes_backend/src/api/db.py] it is [R/database/myapp.db], beside
    the package and not inside it.  When [db.py] lies less than four
    levels deep there is no such directory, and the path cannot be
    computed even if [SQLITE_DB] is set. *)
Theorem default_db_path_location :
  (forall root pkg d1 d2 f,
      _default_db_path (root ++ [pkg; d1; d2; f])
      = Some (root ++ ["database"; "myapp.db"])%list)
  /\ (forall file,
         _default_db_path file = None <-> (List.length file < 4)%nat)
  /\ (forall environ file,
         (List.length file < 4)%nat -> get_db_path environ file = None).
Proof.
  assert (Hnone : forall file,
             _default_db_path file = None <-> (List.length file < 4)%nat).
  { intros file. unfold _default_db_path, parents.
    destruct (3 <? List.length file)%nat eqn:E.
    - apply Nat.ltb_lt in E. split; [discriminate | lia].
    - apply Nat.ltb_ge in E. split; [lia | reflexivity]. }
  split; [|split].
  - intros root pkg d1 d2 f. unfold _default_db_path.
    now rewrite parents_3.
  - exact Hnone.
  - intros environ file Hlen. unfold get_db_path.
    now rewrite (proj2 (Hnone file) Hlen).
Qed.

Lemma default_db_path_location_witness :
  _default_db_path ["srv"; "notes_backend"; "src"; "api"; "db.py"]
  = Some ["srv"; "database"; "myapp.db"]
  /\ get_db_path (fun _ => Some "/data/notes.db") ["src"; "api"; "db.py"]
     = None.
Proof.
  split.
  - apply (proj1 default_db_path_location ["srv"] "notes_backend" "src"
                 "api" "db.py").
  - apply (proj2 (proj2 default_db_path_location)
                 (fun _ => Some "/data/notes.db") ["src"; "api"; "db.py"]).
    cbn. lia.
Defined.

(** X19. [get_connection] creates a directory only when the path in use
    is spelled exactly as the default path, and then it is the directory
    of the default file; with [SQLITE_DB] set to any other spelling no
    directory is created, and with [SQLITE_DB] unset the directory of the
    default file is. *)
Theorem mkdir_only_for_default_path
        (environ : string -> option string) (file default : list string) :
  _default_db_path file = Some default ->
  (forall d,
      get_connection_mkdir environ file = Some (Some d) ->
      get_db_path environ file = Some (str default)
      /\ (d ++ ["myapp.db"])%list = default)
  /\ (forall v,
         environ "SQLITE_DB" = Some v ->
         v <> str default ->
         get_db_path environ file = Some v
         /\ get_connection_mkdir environ file = Some None)
  /\ (environ "SQLITE_DB" = None ->
      exists d,
        get_connection_mkdir environ file = Some (Some d)
        /\ (d ++ ["myapp.db"])%list = default).
Proof.
  intros Hdefault.
  destruct (default_db_path_parent file default Hdefault)
    as (root & Hroot & Hparent).
  assert (Hd : ((root ++ ["database"]) ++ ["myapp.db"])%list = default).
  { rewrite Hroot, <- app_assoc. reflexivity. }
  unfold get_connection_mkdir, get_db_path. rewrite Hdefault, Hparent.
  split; [|split].
  - intros d.
    destruct (environ "SQLITE_DB") as [v|].
    + destruct (String.eqb v (str default)) eqn:E; [|discriminate].
      apply String.eqb_eq in E. intros [= <-]. now rewrite E.
    + rewrite String.eqb_refl. intros [= <-]. now split.
  - intros v -> Hv. split; [reflexivity|].
    now rewrite (proj2 (String.eqb_neq _ _) Hv).
  - intros ->. rewrite String.eqb_refl. now exists (root ++ ["database"])%list.
Qed.

Lemma mkdir_only_for_default_path_witness :
  get_db_path (fun _ => Some "/data/notes.db")
              ["srv"; "notes_backend"; "src"; "api"; "db.py"]
  = Some "/data/notes.db"
  /\ get_connection_mkdir (fun _ => Some "/data/notes.db")
                          ["srv"; "notes_backend"; "src"; "api"; "db.py"]
     = Some None.
Proof.
  apply (proj1 (proj2 (mkdir_only_for_default_path
                         (fun _ => Some "/data/notes.db")
                         ["srv"; "notes_backend"; "src"; "api"; "db.py"]
                         ["srv"; "database"; "myapp.db"] eq_refl))
               "/data/notes.db").
  - reflexivity.
  - discriminate.
Defined.

(* ===================================================================== *)
(** ** What holds of every state the service reaches *)
(* ===================================================================== *)

(** X20. In every state the service reaches, reading never fails: the
    listing answers with as many notes as are stored, and getting the id
    of a stored row answers with that row. *)
Theorem reachable_reads_succeed (db : Database) (clock : Z) :
  reachable db clock ->
  (exists ns,
      list_notes db = (inr ns, db)
      /\ List.length ns = List.length (stored db))
  /\ (forall r, In r (stored db) ->
        get_note (Row.id r) db = (inr (note_of_row r), db)).
Proof.
  intros Hreach.
  pose proof (reachable_rows_valid db clock Hreach) as Hvalid.
  pose proof (reachable_good _ _ title_ok_non_empty content_ok_non_empty
                             db clock Hreach) as (Hunique & _).
  pose proof (reachable_schema_ready db clock Hreach) as [Htable _].
  destruct (notes db) as [tbl|] eqn:Hdb; [|congruence].
  unfold stored in *. rewrite Hdb in *. split.
  - exists (map note_of_row (order_by (rows tbl))). split.
    + unfold list_notes, select_all_ordered, bind. rewrite Hdb.
      apply NoteOut_of_all_valid.
      eapply Permutation_Forall; [|exact Hvalid].
      apply Permutation_sym, order_by_perm.
    + rewrite length_map. apply Permutation_length, order_by_perm.
  - intros r Hr. rewrite (get_note_run db tbl Hdb).
    rewrite (unique_select _ r Hunique Hr).
    apply NoteOut_of_valid. rewrite Forall_forall in Hvalid.
    now apply Hvalid.
Qed.

Lemma reachable_reads_succeed_witness :
  let db := snd (serve (Env.quiet 10)
                       (POST_notes (Body.make (Some "Shopping") (Some "Milk")))
                       (snd (init_db empty_database))) in
  (exists ns,
      list_notes db = (inr ns, db)
      /\ List.length ns = List.length (stored db))
  /\ (forall r, In r (stored db) ->
        get_note (Row.id r) db = (inr (note_of_row r), db)).
Proof.
  apply (reachable_reads_succeed _ 10).
  apply (reachable_serve _ 10 (Env.quiet 10)); [|cbn; lia].
  apply reachable_init.
Defined.

(** X21. No request modifies a [created_at]: with unique ids, a note that
    is stored under an id before a request and under the same id after it
    has the [created_at] it had, whatever the request, its outcome and the
    deletes of other connections. *)
Theorem created_at_never_modified
        (env : Env.t) (rq : Request) (db : Database) (tbl : Table)
        (i : Z) (r r' : Row.t) :
  notes db = Some tbl ->
  ids_unique (rows tbl) ->
  select_by_id i (rows tbl) = Some r ->
  select_by_id i (stored (snd (serve env rq db))) = Some r' ->
  Row.created_at r' = Row.created_at r.
Proof.
  intros Hdb Hunique Hr Hr'.
  pose proof (select_by_id_Some _ _ _ Hr) as [Hin Hid].
  assert (Hsame : forall y, In y (rows tbl) -> Row.id y = i -> y = r).
  { intros y Hy Hyi. pose proof (unique_select _ y Hunique Hy) as Hs.
    rewrite Hyi, Hr in Hs. congruence. }
  apply select_by_id_Some in Hr'. destruct Hr' as [Hin' Hid'].
  destruct (serve_written env db tbl Hdb rq) as [|p Ht Hc|j t c|j].
  - unfold stored in Hin'. rewrite Hdb in Hin'.
    now rewrite (Hsame r' Hin' Hid').
  - cbn [stored with_rows notes rows] in Hin'.
    apply In_concurrent_deletes in Hin'. destruct Hin' as [Hin' _].
    apply in_app_or in Hin'. destruct Hin' as [Hin' | [<- | []]].
    + now rewrite (Hsame r' Hin' Hid').
    + exfalso. cbn in Hid'.
      pose proof (proj2 (proj2 (next_rowid_above tbl)) r Hin). lia.
  - cbn [stored with_rows notes rows] in Hin'.
    apply In_concurrent_deletes in Hin'. destruct Hin' as [Hin' _].
    apply in_map_iff in Hin'. destruct Hin' as [y [<- Hy]].
    rewrite update_where_id in Hid'. rewrite (Hsame y Hy Hid').
    unfold update_where, update_row. now destruct (Row.id r =? j).
  - cbn [stored with_rows notes rows] in Hin'.
    apply In_delete_rows in Hin'. destruct Hin' as [Hin' _].
    now rewrite (Hsame r' Hin' Hid').
Qed.

Lemma created_at_never_modified_witness :
  Row.created_at (Row.make 2 "B" "bread" 10 20)
  = Row.created_at (Row.make 2 "B" "b" 10 10).
Proof.
  apply (created_at_never_modified (Env.quiet 20)
           (PUT_note 2 (Body.make None (Some "bread"))) sample_database
           (mkTable (stored sample_database) 3) 2).
  - reflexivity.
  - repeat constructor; cbn; intuition discriminate.
  - reflexivity.
  - reflexivity.
Defined.
